(** * Word Cloud Generator (word_cloud.py): text extraction, stopword
      filtering, frequency summary and export links.

    Python [str] values are lists of Unicode code points, [bytes] values are
    lists of octets.  Library calls whose results the script only passes
    along (the document parsers, the layout engine, the default stopword
    set, [str.lower], the sort behind [DataFrame.sort_values]) are Section
    variables; the Python built-ins the script's logic rests on
    ([str.split], [str.strip], [str.join], [str.endswith],
    [base64.b64encode], the csv writer) are written out. *)

From Stdlib Require Import NArith ZArith Lia String Ascii DecimalString.
From stdpp Require Import base decidable option list sets gmap countable
  sorting.

#[local] Open Scope N_scope.
#[local] Open Scope list_scope.

(** ** Python strings *)

Module Py.

(** A character is a Unicode code point. *)
Definition char := N.
Definition str := list char.

(** A string literal of the script, as code points (ASCII only). *)
Definition lit (s : string) : str :=
  N_of_ascii <$> list_ascii_of_string s.
Arguments lit s%_string.

Definition space : char := 32.
Definition comma : char := 44.
Definition dquote : char := 34.
Definition newline : char := 10.
Definition carriage : char := 13.

(** [str.isspace] of one character: the code points Python treats as
    whitespace in [str.split()] and [str.strip()]. *)
Definition isspace (c : char) : bool :=
  ((9 <=? c) && (c <=? 13)) || ((28 <=? c) && (c <=? 32))
  || (c =? 133) || (c =? 160) || (c =? 5760)
  || ((8192 <=? c) && (c <=? 8202))
  || (c =? 8232) || (c =? 8233) || (c =? 8239) || (c =? 8287)
  || (c =? 12288).

(** [s.split()]: the maximal runs of non-whitespace characters, in order.
    [cur] is the run being scanned. *)
Fixpoint split_from (cur : str) (s : str) : list str :=
  match s with
  | [] => match cur with [] => [] | _ => [cur] end
  | c :: s' =>
      if isspace c
      then match cur with
           | [] => split_from [] s'
           | _ => cur :: split_from [] s'
           end
      else split_from (cur ++ [c]) s'
  end.

Definition split (s : str) : list str := split_from [] s.

(** [s.split(sep)] for a one-character separator: every piece between
    separators, empty pieces included. *)
Fixpoint split_on_from (sep : char) (cur : str) (s : str) : list str :=
  match s with
  | [] => [cur]
  | c :: s' =>
      if c =? sep
      then cur :: split_on_from sep [] s'
      else split_on_from sep (cur ++ [c]) s'
  end.

Definition split_on (sep : char) (s : str) : list str :=
  split_on_from sep [] s.

(** [sep.join(l)] *)
Fixpoint join (sep : str) (l : list str) : str :=
  match l with
  | [] => []
  | [x] => x
  | x :: l' => x ++ sep ++ join sep l'
  end.

(** [s.lstrip()], [s.rstrip()], [s.strip()] *)
Fixpoint lstrip (s : str) : str :=
  match s with
  | [] => []
  | c :: s' => if isspace c then lstrip s' else s
  end.

Definition rstrip (s : str) : str := reverse (lstrip (reverse s)).

Definition strip (s : str) : str := rstrip (lstrip s).

(** [s.startswith(p)] and [s.endswith(p)] *)
Fixpoint startswith (s p : str) : bool :=
  match p, s with
  | [], _ => true
  | _ :: _, [] => false
  | a :: p', b :: s' => (a =? b) && startswith s' p'
  end.

Definition endswith (s p : str) : bool :=
  startswith (reverse s) (reverse p).

(** [s[:n]] *)
Definition upto (n : nat) (s : str) : str := take n s.

End Py.

Import Py.

(** ** Stopword filter *)

Section Stopwords.

(** [wordcloud.STOPWORDS], the layout library's default set. *)
Variable STOPWORDS : gset str.

(** [str.lower] *)
Variable lower : str → str.

(** [STOPWORDS.union(set(additional_stopwords))] *)
Definition allstopwords (additional_stopwords : list str) : gset str :=
  STOPWORDS ∪ list_to_set additional_stopwords.

(** [def filter_stopwords(text, additional_stopwords=[])] *)
Definition filter_stopwords (text : str) (additional_stopwords : list str)
  : str :=
  let words := split text in
  let allstopwords := allstopwords additional_stopwords in
  let filtered_words :=
    filter (λ word, lower word ∉ allstopwords) words in
  join [space] filtered_words.

End Stopwords.

(** [additional_stopwords = [word.strip() for word in
    custom_stopwords.split(",")] if custom_stopwords else []] *)
Definition additional_stopwords (custom_stopwords : str) : list str :=
  match custom_stopwords with
  | [] => []
  | _ => strip <$> split_on comma custom_stopwords
  end.

(** ** Bytes, UTF-8 and base64 *)

Definition byte := N.
Definition bytes := list byte.

(** An exception, with the text [str(e)] gives. *)
Inductive exn := Exception (message : str).

Definition exn_str (e : exn) : str := let 'Exception m := e in m.

(** What a function call comes to: it returns or it raises. *)
Inductive result (A : Type) : Type :=
| Ok (a : A)
| Err (e : exn).
Arguments Ok {A} a.
Arguments Err {A} e.

Definition is_surrogate (c : char) : bool := (55296 <=? c) && (c <=? 57343).

(** The UTF-8 form of one code point; [None] where the codec refuses it
    (a lone surrogate, or a number that is no code point). *)
Definition encode_char (c : char) : option bytes :=
  if c <? 128 then Some [c]
  else if c <? 2048 then Some [192 + c / 64; 128 + c mod 64]
  else if c <? 65536 then
    if is_surrogate c then None
    else Some [224 + c / 4096; 128 + (c / 64) mod 64; 128 + c mod 64]
  else if c <? 1114112 then
    Some [240 + c / 262144; 128 + (c / 4096) mod 64;
          128 + (c / 64) mod 64; 128 + c mod 64]
  else None.

(** [s.encode()] *)
Fixpoint encode (s : str) : result bytes :=
  match s with
  | [] => Ok []
  | c :: s' =>
      match encode_char c, encode s' with
      | Some bs, Ok rest => Ok (bs ++ rest)
      | None, _ => Err (Exception (lit "UnicodeEncodeError"))
      | _, r => r
      end
  end.

Definition b64_alphabet : str :=
  lit "ABCDEFGHIJKLMNOPQRSTUVWXYZabcdefghijklmnopqrstuvwxyz0123456789+/".

Definition b64_pad : char := 61.

(** The character of a 6-bit group. *)
Definition b64_char (n : N) : char :=
  nth (N.to_nat (n mod 64)) b64_alphabet b64_pad.

(** [base64.b64encode(data).decode()]: three octets give four characters,
    a short last group is padded with [=]. *)
Fixpoint b64encode (data : bytes) : str :=
  match data with
  | [] => []
  | [a] =>
      let n := (a mod 256) * 65536 in
      [b64_char (n / 262144); b64_char (n / 4096); b64_pad; b64_pad]
  | [a; b] =>
      let n := (a mod 256) * 65536 + (b mod 256) * 256 in
      [b64_char (n / 262144); b64_char (n / 4096); b64_char (n / 64);
       b64_pad]
  | a :: b :: c :: rest =>
      let n := (a mod 256) * 65536 + (b mod 256) * 256 + c mod 256 in
      [b64_char (n / 262144); b64_char (n / 4096); b64_char (n / 64);
       b64_char n] ++ b64encode rest
  end.

(** ** Tables *)

(** The column types [pd.read_csv] infers. *)
Inductive dtype := object | int64 | float64 | bool_.

#[export] Instance dtype_eq_dec : EqDecision dtype.
Proof. solve_decision. Defined.

(** A column of a parsed table: its label, its dtype and its cells as
    [astype(str)] renders them (a missing cell reads [nan]). *)
Record column := Column {
  col_name : str;
  col_dtype : dtype;
  col_cells : list str
}.

(** A [DataFrame] read from a file: its columns, left to right.  Labels
    are unique ([read_csv] renames duplicates), so [df[col]] is the column
    labelled [col]. *)
Definition DataFrame := list column.

(** [df.select_dtypes(include=['object'])] *)
Definition select_dtypes_object (df : DataFrame) : DataFrame :=
  filter (λ c, col_dtype c = object) df.

(** [df[col].astype(str).str.cat(sep=' ')] *)
Definition str_cat (c : column) : str := join [space] (col_cells c).

(** The body of [read_csv]'s [try] once the file is parsed. *)
Definition text_of_frame (df : DataFrame) : str :=
  let text_columns := select_dtypes_object df in
  join [space] (str_cat <$> text_columns).

(** ** The csv writer *)

(** A field is quoted when it holds the delimiter, the quote character or
    a line break (csv.QUOTE_MINIMAL). *)
Definition csv_special (c : char) : bool :=
  (c =? comma) || (c =? dquote) || (c =? newline) || (c =? carriage).

Definition csv_escape (field : str) : str :=
  flat_map (λ c, if c =? dquote then [dquote; dquote] else [c]) field.

Definition csv_field (field : str) : str :=
  if existsb csv_special field
  then dquote :: csv_escape field ++ [dquote]
  else field.

(** One record: the fields separated by commas, then the line end. *)
Definition csv_row (fields : list str) : str :=
  join [comma] (csv_field <$> fields) ++ [newline].

(** ** Export links *)

(** [f'<a href="data:file/png;base64,{plot_data}" download="{filename}">Download Plot</a>'] *)
Definition plot_href (plot_data filename : str) : str :=
  lit "<a href=" ++ [dquote] ++ lit "data:file/png;base64," ++ plot_data
  ++ [dquote] ++ lit " download=" ++ [dquote] ++ filename ++ [dquote]
  ++ lit ">Download Plot</a>".

(** [f'<a href="data:file/csv;base64,{b64}" download="{filename}">Download CSV File</a>'] *)
Definition csv_href (b64 filename : str) : str :=
  lit "<a href=" ++ [dquote] ++ lit "data:file/csv;base64," ++ b64
  ++ [dquote] ++ lit " download=" ++ [dquote] ++ filename ++ [dquote]
  ++ lit ">Download CSV File</a>".

Section ExportLinks.

(** The type of the Frequency column's numbers, and how [to_csv] prints
    one (Python's shortest [repr] of a float). *)
Variable weight : Type.
Variable repr : weight → str.

(** The figure type and [plot.savefig(buf, format="png", dpi=300,
    bbox_inches='tight')] followed by [buf.read()]. *)
Variable Figure : Type.
Variable savefig : Figure → bytes.

(** [freq_df]: the rows (Word, Frequency), top to bottom. *)
Definition freq_table := list (str * weight).

(** [df.to_csv(index=False)] on a frame with columns Word and Frequency:
    the header record, then a record per row, each ended by a line feed
    (the line separator of the host the script is served from). *)
Definition to_csv (df : freq_table) : str :=
  csv_row [lit "Word"; lit "Frequency"]
  ++ flat_map (λ r, csv_row [r.1; repr r.2]) df.

(** [def get_plot_download_link(plot, filename)] *)
Definition get_plot_download_link (plot : Figure) (filename : str) : str :=
  let buf := savefig plot in
  let plot_data := b64encode buf in
  plot_href plot_data filename.

(** [def get_df_download_link(df, filename)] *)
Definition get_df_download_link (df : freq_table) (filename : str)
  : result str :=
  let csv := to_csv df in
  match encode csv with
  | Ok data => Ok (csv_href (b64encode data) filename)
  | Err e => Err e
  end.

End ExportLinks.

Arguments to_csv {weight} repr df.
Arguments get_plot_download_link {Figure} savefig plot filename.
Arguments get_df_download_link {weight} repr df filename.

(** ** The script *)

(** An uploaded file: [uploaded_file.name], [uploaded_file.type] and its
    content. *)
Record UploadedFile := {
  name : str;
  type : str;
  getvalue : bytes
}.

(** The sidebar's settings, as passed to [WordCloud(...)] (width 800 and
    height 400 are fixed in the script). *)
Record settings := {
  max_words : N;
  background_color : str;
  colormap : str;
  contour_width : N;
  contour_color : str
}.

Section Script.

Variable STOPWORDS : gset str.
Variable lower : str → str.
Variable weight : Type.
Variable repr : weight → str.

(** [bytes.decode('utf-8')] *)
Variable decode : bytes → result str.
(** [Document(file)], as the texts of [doc.paragraphs]. *)
Variable Document : bytes → result (list str).
(** [PdfReader(file)], as [page.extract_text()] of each of its pages. *)
Variable PdfReader : bytes → result (list str).
(** [pd.read_csv(file)] *)
Variable pd_read_csv : bytes → result DataFrame.

(** The layout engine: [WordCloud(...).generate(text)], its [words_] in
    the order the engine lists them, and the figure drawn from it,
    saved as PNG. *)
Variable WordCloud : Type.
Variable generate : settings → str → result WordCloud.
Variable words_ : WordCloud → list (str * weight).
Variable savefig : WordCloud → bytes.

(** [freq_df.sort_values('Frequency', ascending=False)] *)
Variable sort_values : list (str * weight) → list (str * weight).

(** What a run shows or calls, in order. *)
Inductive event :=
| st_title (body : str)
| st_write (body : str)
| st_error (body : str)
| st_text (body : str)
| st_subheader (body : str)
| st_pyplot (fig : WordCloud)
| st_markdown (body : str)
| st_dataframe (df : list (str * weight))
| st_bar_chart (df : list (str * weight))
| WordCloud_generate (cfg : settings) (text : str).

(** How a piece of the script ends: with a value, with an exception
    nobody caught, or in [st.stop()]. *)
Inductive outcome (A : Type) : Type :=
| Done (a : A)
| Raise (e : exn)
| Stopped.
Arguments Done {A} a.
Arguments Raise {A} e.
Arguments Stopped {A}.

(** A piece of the script: from the events so far to its outcome and
    the events after it. *)
Definition run (A : Type) : Type := list event → outcome A * list event.

Definition ret {A} (a : A) : run A := λ log, (Done a, log).

Definition bind {A B} (m : run A) (k : A → run B) : run B :=
  λ log,
    match m log with
    | (Done a, log') => k a log'
    | (Raise e, log') => (Raise e, log')
    | (Stopped, log') => (Stopped, log')
    end.

Definition emit (e : event) : run unit := λ log, (Done tt, log ++ [e]).

Definition call {A} (r : result A) : run A :=
  λ log, (match r with Ok a => Done a | Err e => Raise e end, log).

(** [st.stop()] *)
Definition st_stop {A} : run A := λ log, (Stopped, log).

(** [try: body  except Exception as e: handler(e)] *)
Definition try_except {A} (body : run A) (handler : exn → run A) : run A :=
  λ log,
    match body log with
    | (Raise e, log') => handler e log'
    | r => r
    end.

Notation "x <- m ;; k" := (bind m (λ x, k))
  (at level 100, m at next level, right associativity).
Notation "m ;;; k" := (bind m (λ _, k))
  (at level 100, right associativity).

(** [def read_text(file)] *)
Definition read_text (file : UploadedFile) : run str :=
  call (decode (getvalue file)).

(** [def read_doc(file)] *)
Definition read_doc (file : UploadedFile) : run str :=
  paragraphs <- call (Document (getvalue file)) ;;
  ret (join [space] paragraphs).

(** [def read_pdf(file)]: pages whose text is empty are left out. *)
Definition read_pdf (file : UploadedFile) : run str :=
  pages <- call (PdfReader (getvalue file)) ;;
  let text := filter (λ page_text, page_text ≠ []) pages in
  ret (join [space] text).

(** [def read_csv(file)] *)
Definition read_csv (file : UploadedFile) : run str :=
  try_except
    (df <- call (pd_read_csv (getvalue file)) ;;
     ret (text_of_frame df))
    (λ e,
       emit (st_error (lit "Error reading CSV file: " ++ exn_str e)) ;;;
       ret []).

(** The extractor the [if]/[elif] chain on [uploaded_file.type] picks. *)
Inductive extractor := ReadText | ReadDoc | ReadPdf | ReadCsv.

Definition docx_type : str :=
  lit "application/vnd.openxmlformats-officedocument.wordprocessingml.document".

Definition dispatch (uploaded_file : UploadedFile) : option extractor :=
  let file_type := type uploaded_file in
  if decide (file_type = lit "text/plain") then Some ReadText
  else if decide (file_type = docx_type) then Some ReadDoc
  else if decide (file_type = lit "application/pdf") then Some ReadPdf
  else if bool_decide (file_type = lit "text/csv")
          || endswith (name uploaded_file) (lit ".csv")
  then Some ReadCsv
  else None.

Definition extract (uploaded_file : UploadedFile) : run str :=
  match dispatch uploaded_file with
  | Some ReadText => read_text uploaded_file
  | Some ReadDoc => read_doc uploaded_file
  | Some ReadPdf => read_pdf uploaded_file
  | Some ReadCsv => read_csv uploaded_file
  | None => emit (st_error (lit "Unsupported file type")) ;;; st_stop
  end.

Definition empty_message : str :=
  lit "The uploaded file appears to be empty or couldn't be read properly.".

(** [text[:1000] + ("..." if len(text) > 1000 else "")] *)
Definition preview (text : str) : str :=
  upto 1000 text ++ (if (1000 <? length text)%nat then lit "..." else []).

(** [pd.DataFrame(list(word_freq.items()), columns=['Word',
    'Frequency'])], then [sort_values]. *)
Definition summarize (wordcloud : WordCloud) : list (str * weight) :=
  let word_freq := words_ wordcloud in
  let freq_df := word_freq in
  sort_values freq_df.

(** The [else] branch of the empty-text test: preview, filter, layout,
    figure, links and the frequency table. *)
Definition render (cfg : settings) (additional : list str) (text : str)
  : run unit :=
  emit (st_text (preview text)) ;;;
  let filtered_text := filter_stopwords STOPWORDS lower text additional in
  emit (WordCloud_generate cfg filtered_text) ;;;
  wordcloud <- call (generate cfg filtered_text) ;;
  emit (st_subheader (lit "Generated Word Cloud")) ;;;
  emit (st_pyplot wordcloud) ;;;
  emit (st_markdown
          (get_plot_download_link savefig wordcloud (lit "wordcloud.png"))) ;;;
  emit (st_subheader (lit "Word Frequency Analysis")) ;;;
  let freq_df := summarize wordcloud in
  emit (st_dataframe (take 20 freq_df)) ;;;
  emit (st_bar_chart (take 10 freq_df)) ;;;
  link <- call (get_df_download_link repr freq_df
                 (lit "word_frequencies.csv")) ;;
  emit (st_markdown link).

(** [if uploaded_file: ...] *)
Definition process (cfg : settings) (custom_stopwords : str)
    (uploaded_file : option UploadedFile) : run unit :=
  match uploaded_file with
  | None => ret tt
  | Some file =>
      text <- extract file ;;
      if decide (strip text = [])
      then emit (st_error empty_message)
      else render cfg (additional_stopwords custom_stopwords) text
  end.

(** The script from its first line, for one run. *)
Definition script (cfg : settings) (custom_stopwords : str)
    (uploaded_file : option UploadedFile) : run unit :=
  emit (st_title (128202 :: lit " Word Cloud Generator")) ;;;
  emit (st_write (lit "Generate word clouds from text files, Word documents, PDFs, or CSV files")) ;;;
  process cfg custom_stopwords uploaded_file.

End Script.

Arguments Done {A} a.
Arguments Raise {A} e.
Arguments Stopped {A}.
Arguments st_error {weight WordCloud} body.
Arguments st_markdown {weight WordCloud} body.
Arguments WordCloud_generate {weight WordCloud} cfg text.
Arguments read_text {weight} decode {WordCloud} file _.
Arguments read_doc {weight} Document {WordCloud} file _.
Arguments read_pdf {weight} PdfReader {WordCloud} file _.
Arguments read_csv {weight} pd_read_csv {WordCloud} file _.
Arguments extract {weight} decode Document PdfReader pd_read_csv {WordCloud}
  uploaded_file _.
Arguments summarize {weight WordCloud} words_ sort_values wordcloud.

(** ** The specification's notions *)

(** A token: not empty and free of whitespace. *)
Definition token (w : str) : Prop :=
  w ≠ [] ∧ Forall (λ c, isspace c = false) w.

(** Trimmed: no whitespace at either end. *)
Definition trimmed (s : str) : Prop :=
  (∀ c, head s = Some c → isspace c = false)
  ∧ (∀ c, last s = Some c → isspace c = false).

(** A Unicode scalar value: a code point that is not a surrogate, which
    is what text holds and [str.encode] accepts. *)
Definition unicode_scalar (c : char) : Prop :=
  c < 1114112 ∧ ¬ (55296 ≤ c ∧ c ≤ 57343).

(** The four MIME types the script's [if]/[elif] chain names. *)
Definition recognized (file_type : str) : Prop :=
  file_type = lit "text/plain" ∨ file_type = docx_type
  ∨ file_type = lit "application/pdf" ∨ file_type = lit "text/csv".

(** Row-major order of the specification: the cells of the first row, then
    those of the second row, and so on, over the given columns. *)
Definition row_major (columns : list (list str)) : list str :=
  let rows := foldr Nat.max 0%nat (length <$> columns) in
  flat_map (λ i, omap (λ cells, cells !! i) columns) (seq 0 rows).

(** Column-major order: the cells of the first column, then those of the
    second column, and so on. *)
Definition column_major (columns : list (list str)) : list str :=
  concat columns.

(** The cells of the textual columns of a table. *)
Definition text_cells (df : DataFrame) : list (list str) :=
  col_cells <$> select_dtypes_object df.

(** [a] comes before [b] in [l]. *)
Definition before {A} (a b : A) (l : list A) : Prop :=
  ∃ l1 l2 l3, l = l1 ++ a :: l2 ++ b :: l3.

Section Order.

Variable weight : Type.
(** [x <= y] on the Frequency column's numbers. *)
Variable le : weight → weight → Prop.

(** Non-increasing by weight, top to bottom. *)
Definition descending (df : list (str * weight)) : Prop :=
  Sorted (λ r1 r2, le r2.2 r1.2) df.

(** What pandas documents for [sort_values(by, ascending=False)] with
    the default [kind='quicksort']: the rows are kept and come out
    ordered; the order among equal keys is not part of it. *)
Definition sorts_descending
    (sort_values : list (str * weight) → list (str * weight)) : Prop :=
  ∀ df, Permutation df (sort_values df) ∧ descending (sort_values df).

(** Stability: entries of equal weight keep the order the input had. *)
Definition stable (input output : list (str * weight)) : Prop :=
  ∀ r1 r2, r1.2 = r2.2 → before r1 r2 input → before r1 r2 output.

End Order.

Arguments descending {weight} le df.
Arguments sorts_descending {weight} le sort_values.
Arguments stable {weight} input output.

(** A sort on integer weights that meets [sorts_descending] and puts a row
    after the rows of equal weight already placed. *)
Fixpoint insert_after_ties (r : str * N) (l : list (str * N))
  : list (str * N) :=
  match l with
  | [] => [r]
  | x :: l' => if x.2 <? r.2 then r :: l else x :: insert_after_ties r l'
  end.

Definition sort_ties_last (df : list (str * N)) : list (str * N) :=
  foldr insert_after_ties [] df.

(** *** Reading an export link back *)

(** [s] without the prefix [p], when it starts with it. *)
Fixpoint removeprefix (p s : str) : option str :=
  match p, s with
  | [], _ => Some s
  | a :: p', b :: s' => if a =? b then removeprefix p' s' else None
  | _ :: _, [] => None
  end.

(** [s] cut at the first [c]: what is before it and what is after it. *)
Fixpoint partition_at (c : char) (s : str) : option (str * str) :=
  match s with
  | [] => None
  | x :: s' =>
      if x =? c then Some ([], s')
      else '(l, r) ← partition_at c s'; Some (x :: l, r)
  end.

(** The parts of a download link: the data URI's media type, its base64
    payload, and the file name. *)
Record data_link := DataLink {
  mime : str;
  payload : str;
  download : str
}.

Definition parse_link (href : str) : option data_link :=
  s1 ← removeprefix (lit "<a href=" ++ [dquote] ++ lit "data:") href;
  '(m, s2) ← partition_at 59 s1;
  s3 ← removeprefix (lit "base64,") s2;
  '(p, s4) ← partition_at dquote s3;
  s5 ← removeprefix (lit " download=" ++ [dquote]) s4;
  '(f, _) ← partition_at dquote s5;
  Some (DataLink m p f).

(** Modelled from the spec: the decoder of the export payload, which the
    repository does not have.  The 6-bit value of a base64 character. *)
Definition b64_value (c : char) : option N :=
  if (65 <=? c) && (c <=? 90) then Some (c - 65)
  else if (97 <=? c) && (c <=? 122) then Some (c - 71)
  else if (48 <=? c) && (c <=? 57) then Some (c + 4)
  else if c =? 43 then Some 62
  else if c =? 47 then Some 63
  else None.

(** Modelled from the spec: base64 decoding, the inverse of
    [b64encode]; the repository has no decoder. *)
Fixpoint b64decode (s : str) : option bytes :=
  match s with
  | [] => Some []
  | c0 :: c1 :: c2 :: c3 :: rest =>
      v0 ← b64_value c0;
      v1 ← b64_value c1;
      if c2 =? b64_pad then
        match rest with
        | [] => Some [v0 * 4 + v1 / 16]
        | _ => None
        end
      else
        v2 ← b64_value c2;
        if c3 =? b64_pad then
          match rest with
          | [] => Some [v0 * 4 + v1 / 16; (v1 mod 16) * 16 + v2 / 4]
          | _ => None
          end
        else
          v3 ← b64_value c3;
          data ← b64decode rest;
          Some (v0 * 4 + v1 / 16 :: (v1 mod 16) * 16 + v2 / 4
                :: (v2 mod 4) * 64 + v3 :: data)
  | _ => None
  end.

(** Modelled from the spec: UTF-8 decoding of the payload's octets, the
    inverse of [encode]; the repository has no decoder. *)
Fixpoint utf8_decode (data : bytes) : option str :=
  match data with
  | [] => Some []
  | b0 :: r0 =>
      if b0 <? 128 then cons b0 <$> utf8_decode r0
      else if b0 <? 224 then
        match r0 with
        | b1 :: r1 =>
            cons ((b0 - 192) * 64 + (b1 - 128)) <$> utf8_decode r1
        | _ => None
        end
      else if b0 <? 240 then
        match r0 with
        | b1 :: b2 :: r2 =>
            cons ((b0 - 224) * 4096 + (b1 - 128) * 64 + (b2 - 128))
              <$> utf8_decode r2
        | _ => None
        end
      else
        match r0 with
        | b1 :: b2 :: b3 :: r3 =>
            cons ((b0 - 240) * 262144 + (b1 - 128) * 4096
                  + (b2 - 128) * 64 + (b3 - 128))
              <$> utf8_decode r3
        | _ => None
        end
  end.

(** Where a csv reader stands: in a field, inside a quoted field, or just
    after a quote met inside a quoted field. *)
Inductive reader_state := InField | InQuoted | QuoteInQuoted.

(** Modelled from the spec: the csv reader that turns the payload's text
    back into rows (comma-delimited, fields quoted with doubled quotes
    inside, a record per line); the repository has no reader.  [field] is
    the field read so far and [row] the fields of the record before it. *)
Fixpoint csv_reader (st : reader_state) (field : str) (row : list str)
    (s : str) : list (list str) :=
  match s with
  | [] =>
      match st, field, row with
      | InField, [], [] => []
      | _, _, _ => [row ++ [field]]
      end
  | c :: s' =>
      match st with
      | InField =>
          if c =? comma then csv_reader InField [] (row ++ [field]) s'
          else if c =? newline
          then (row ++ [field]) :: csv_reader InField [] [] s'
          else if (c =? dquote) && bool_decide (field = [])
          then csv_reader InQuoted [] row s'
          else csv_reader InField (field ++ [c]) row s'
      | InQuoted =>
          if c =? dquote then csv_reader QuoteInQuoted field row s'
          else csv_reader InQuoted (field ++ [c]) row s'
      | QuoteInQuoted =>
          if c =? dquote then csv_reader InQuoted (field ++ [dquote]) row s'
          else if c =? comma then csv_reader InField [] (row ++ [field]) s'
          else if c =? newline
          then (row ++ [field]) :: csv_reader InField [] [] s'
          else csv_reader InField (field ++ [c]) row s'
      end
  end.

Section Decode.

Variable weight : Type.
(** Modelled from the spec: reading a printed number back
    ([float(s)]). *)
Variable float : str → option weight.

Definition read_row (cells : list str) : option (str * weight) :=
  match cells with
  | [word; frequency] => pair word <$> float frequency
  | _ => None
  end.

(** Modelled from the spec: the rows under the header [Word,Frequency],
    as (word, weight) pairs. *)
Definition read_table (text : str) : option (list (str * weight)) :=
  match csv_reader InField [] [] text with
  | header :: rows =>
      if decide (header = [lit "Word"; lit "Frequency"])
      then mapM read_row rows
      else None
  | [] => None
  end.

(** Modelled from the spec: [decode], from the table export link back
    to the report: the link's payload, base64-decoded, UTF-8-decoded
    and read as csv. *)
Definition decode_table (href : str) : option (list (str * weight)) :=
  link ← parse_link href;
  data ← b64decode (payload link);
  text ← utf8_decode data;
  read_table text.

End Decode.

Arguments read_table {weight} float text.
Arguments decode_table {weight} float href.

(** ** An instance for the examples *)

(** The sidebar as it first shows. *)
Definition default_settings : settings := {|
  max_words := 200;
  background_color := lit "#ffffff";
  colormap := lit "viridis";
  contour_width := 0;
  contour_color := lit "#000000"
|}.

(** [str.lower] on the letters A to Z, all that the examples hold. *)
Definition ascii_lower (s : str) : str :=
  (λ c, if (65 <=? c) && (c <=? 90) then c + 32 else c) <$> s.

(** Whole-number weights, printed in decimal and read back. *)
Definition decimal_repr (n : N) : str :=
  lit (NilEmpty.string_of_uint (N.to_uint n)).

Definition decimal_float (s : str) : option N :=
  N.of_uint
    <$> NilEmpty.uint_of_string (string_of_list_ascii (ascii_of_N <$> s)).

(** * Properties *)

(** ** Splitting and joining *)

Lemma split_from_run (w cur rest : str) :
  Forall (λ c, isspace c = false) w →
  split_from cur (w ++ rest) = split_from (cur ++ w) rest.
Proof.
  intros Hw. revert cur.
  induction Hw as [|c w Hc _ IH]; intros cur; simpl.
  - by rewrite app_nil_r.
  - rewrite Hc, IH. by rewrite <- app_assoc.
Qed.

Lemma split_from_space (cur rest : str) :
  cur ≠ [] → split_from cur (space :: rest) = cur :: split_from [] rest.
Proof. intros Hcur. simpl. by destruct cur. Qed.

Lemma split_from_tokens (cur s : str) :
  Forall (λ c, isspace c = false) cur → Forall token (split_from cur s).
Proof.
  revert cur. induction s as [|c s IH]; intros cur Hcur; simpl.
  - destruct cur as [|x cur]; [constructor|].
    constructor; [|constructor]. by split.
  - destruct (isspace c) eqn:Hc.
    + destruct cur as [|x cur]; [by apply IH|].
      constructor; [by split|]. by apply IH.
    + apply IH. apply Forall_app. split; [done|]. by constructor.
Qed.

Lemma split_tokens (s : str) : Forall token (split s).
Proof. apply split_from_tokens. constructor. Qed.

(** The tokens of a text, put end to end, are the text without its
    whitespace. *)
Lemma split_from_concat (cur s : str) :
  concat (split_from cur s) = cur ++ filter (λ c, isspace c = false) s.
Proof.
  unfold str in *. revert cur. induction s as [|c s IH]; intros cur.
  - destruct cur; simpl; [done|]. by rewrite !app_nil_r.
  - rewrite filter_cons. cbn [split_from]. destruct (isspace c) eqn:Hc.
    + rewrite decide_False by done.
      destruct cur as [|x cur]; [by rewrite IH|].
      cbn [concat]. by rewrite IH.
    + rewrite decide_True by done. rewrite IH. by rewrite <- app_assoc.
Qed.

Lemma split_concat (s : str) :
  concat (split s) = filter (λ c, isspace c = false) s.
Proof. apply split_from_concat. Qed.

Lemma split_join (l : list str) :
  Forall token l → split (join [space] l) = l.
Proof.
  unfold split. induction 1 as [|w l [Hne Hw] Hl IH]; [done|].
  destruct l as [|w' l].
  - simpl. rewrite <- (app_nil_r w) at 1.
    rewrite split_from_run by done. simpl. by destruct w.
  - change (join [space] (w :: w' :: l))
      with (w ++ space :: join [space] (w' :: l)).
    rewrite split_from_run by done. simpl app at 1.
    rewrite split_from_space by done. by rewrite IH.
Qed.

Lemma Forall_token_filter (P : str → Prop) `{!∀ w, Decision (P w)}
    (l : list str) :
  Forall token l → Forall token (filter P l).
Proof.
  induction 1 as [|w l Hw _ IH]; [constructor|].
  rewrite filter_cons. destruct (decide (P w)); [by constructor|done].
Qed.

Lemma filter_filter_same {A} (P : A → Prop) `{!∀ x, Decision (P x)}
    (l : list A) :
  filter P (filter P l) = filter P l.
Proof.
  induction l as [|x l IH]; [done|].
  rewrite filter_cons. destruct (decide (P x)) as [HP|HP]; [|done].
  rewrite filter_cons. rewrite decide_True by done. by rewrite IH.
Qed.

(** ** Stopword filter *)

Section StopwordFacts.

Variable STOPWORDS : gset str.
Variable lower : str → str.

Lemma split_filter_stopwords T S :
  split (filter_stopwords STOPWORDS lower T S)
  = filter (λ w, lower w ∉ allstopwords STOPWORDS S) (split T).
Proof. apply split_join, Forall_token_filter, split_tokens. Qed.

(** C1: for every text [T] and every list [S] of extra stopwords,
    [filter_stopwords T S] is the whitespace-split tokens of [T] whose
    lowercased form is not in the default set united with [S], joined by
    single spaces; read back, its tokens are exactly those tokens, in
    their original order and casing; it has no more tokens than [T]; and
    the empty text gives the empty text. *)
Theorem filter_stopwords_spec T S :
  filter_stopwords STOPWORDS lower T S
    = join [space]
        (filter (λ w, lower w ∉ STOPWORDS ∪ list_to_set S) (split T))
  ∧ split (filter_stopwords STOPWORDS lower T S)
    = filter (λ w, lower w ∉ STOPWORDS ∪ list_to_set S) (split T)
  ∧ (length (split (filter_stopwords STOPWORDS lower T S))
     ≤ length (split T))%nat
  ∧ filter_stopwords STOPWORDS lower [] S = [].
Proof.
  rewrite split_filter_stopwords. split; [done|]. split; [done|].
  split; [apply length_filter|done].
Qed.

(** C5: filtering a filtered text again with the same stopwords changes
    nothing. *)
Theorem filter_stopwords_idempotent T S :
  filter_stopwords STOPWORDS lower
    (filter_stopwords STOPWORDS lower T S) S
  = filter_stopwords STOPWORDS lower T S.
Proof.
  unfold filter_stopwords at 1. simpl.
  rewrite split_filter_stopwords. by rewrite filter_filter_same.
Qed.

End StopwordFacts.

(** The custom stopword [the] removes every [the], whatever its case, and
    nothing else. *)
Example filter_stopwords_the :
  filter_stopwords ∅ ascii_lower (lit "the cat sat on The mat the cat ran")
    (additional_stopwords (lit "the"))
  = lit "cat sat on mat cat ran".
Proof. vm_compute. reflexivity. Qed.

(** Tokens keep their punctuation when compared. *)
Example filter_stopwords_punctuation :
  filter_stopwords ∅ ascii_lower (lit "The. cat")
    (additional_stopwords (lit " the ,"))
  = lit "The. cat".
Proof. vm_compute. reflexivity. Qed.

(** ** Stripping and splitting at commas *)

Lemma lstrip_suffix (s : str) :
  ∃ l, s = l ++ lstrip s ∧ Forall (λ c, isspace c = true) l.
Proof.
  induction s as [|c s (l & Hs & Hl)]; [by exists []|].
  simpl. destruct (isspace c) eqn:Hc.
  - exists (c :: l). split; [by rewrite Hs at 1|by constructor].
  - by exists [].
Qed.

Lemma lstrip_head (s : str) (c : char) :
  head (lstrip s) = Some c → isspace c = false.
Proof.
  induction s as [|x s IH]; [done|]. simpl.
  destruct (isspace x) eqn:Hx; [done|]. simpl. by intros [= <-].
Qed.

Lemma lstrip_nil_iff (s : str) :
  lstrip s = [] ↔ Forall (λ c, isspace c = true) s.
Proof.
  induction s as [|x s IH]; [done|]. simpl.
  destruct (isspace x) eqn:Hx.
  - rewrite IH. split; [by constructor|by inversion 1].
  - split; [done|]. inversion 1; congruence.
Qed.

Lemma rstrip_prefix (s : str) :
  ∃ r, s = rstrip s ++ r ∧ Forall (λ c, isspace c = true) r.
Proof.
  destruct (lstrip_suffix (reverse s)) as (l & Hs & Hl).
  exists (reverse l). split; [|by apply Forall_reverse].
  unfold rstrip. rewrite <- reverse_app, <- Hs. by rewrite reverse_involutive.
Qed.

Lemma rstrip_last (s : str) (c : char) :
  last (rstrip s) = Some c → isspace c = false.
Proof. unfold rstrip. rewrite last_reverse. apply lstrip_head. Qed.

Lemma strip_trimmed (s : str) : trimmed (strip s).
Proof.
  split; intros c Hc; [|by eapply rstrip_last].
  destruct (rstrip_prefix (lstrip s)) as (r & Hs & _).
  apply (lstrip_head s). rewrite Hs. unfold strip in Hc.
  by rewrite head_app, Hc.
Qed.

Lemma strip_nil_iff (s : str) :
  strip s = [] ↔ Forall (λ c, isspace c = true) s.
Proof.
  unfold strip, rstrip. rewrite <- lstrip_nil_iff. split.
  - intros Hs. apply (f_equal reverse) in Hs.
    rewrite reverse_involutive in Hs. simpl in Hs.
    apply lstrip_nil_iff, Forall_reverse in Hs.
    rewrite reverse_involutive in Hs.
    destruct (lstrip s) as [|c t] eqn:Ht; [done|].
    assert (isspace c = false) as Hc by (apply (lstrip_head s); by rewrite Ht).
    inversion Hs; congruence.
  - by intros ->.
Qed.

Lemma split_on_from_join (sep : char) (cur s : str) :
  join [sep] (split_on_from sep cur s) = cur ++ s.
Proof.
  revert cur. induction s as [|c s IH]; intros cur; simpl.
  - by rewrite app_nil_r.
  - destruct (N.eqb_spec c sep) as [->|_].
    + specialize (IH []).
      destruct (split_on_from sep [] s) eqn:E; [by destruct s|].
      simpl in *. by rewrite IH.
    + rewrite IH. by rewrite <- app_assoc.
Qed.

Lemma split_on_from_pieces (sep : char) (cur s : str) :
  Forall (λ c, c ≠ sep) cur →
  Forall (Forall (λ c, c ≠ sep)) (split_on_from sep cur s).
Proof.
  revert cur. induction s as [|c s IH]; intros cur Hcur; simpl.
  - by constructor.
  - destruct (N.eqb_spec c sep) as [->|Hc].
    + constructor; [done|]. by apply IH.
    + apply IH. apply Forall_app. split; [done|]. by constructor.
Qed.

(** ** The active stopword set *)



(** ** The tabular extractor *)

Lemma join_app (sep : str) (l1 l2 : list str) :
  l1 ≠ [] → l2 ≠ [] →
  join sep (l1 ++ l2) = join sep l1 ++ sep ++ join sep l2.
Proof.
  intros H1 H2. induction l1 as [|x [|y l1] IH]; [done| |].
  - destruct l2; [done|]. reflexivity.
  - change (join sep ((x :: y :: l1) ++ l2))
      with (x ++ sep ++ join sep ((y :: l1) ++ l2)).
    rewrite IH by done.
    change (join sep (x :: y :: l1)) with (x ++ sep ++ join sep (y :: l1)).
    by rewrite <- !app_assoc.
Qed.

Lemma join_join_concat (sep : str) (ls : list (list str)) :
  Forall (λ l, l ≠ []) ls →
  join sep (join sep <$> ls) = join sep (concat ls).
Proof.
  induction 1 as [|l ls Hl Hls IH]; [done|].
  destruct ls as [|l' ls]; [simpl; by rewrite app_nil_r|].
  change (join sep (join sep <$> l :: l' :: ls))
    with (join sep l ++ sep ++ join sep (join sep <$> l' :: ls)).
  rewrite IH. change (concat (l :: l' :: ls)) with (l ++ concat (l' :: ls)).
  rewrite join_app; [done..|].
  inversion Hls; subst. simpl. by destruct l'.
Qed.

(** C2 (as the code has it): when the file parses to a table whose
    textual columns have at least one cell each, [read_csv] returns every
    cell of every textual (object-dtype) column and nothing else, joined by
    single spaces in column-major order: all cells of the first textual
    column before any cell of the second; the other columns contribute
    nothing. *)
Theorem read_csv_column_major {weight WordCloud : Type}
    (pd_read_csv : bytes → result DataFrame) (file : UploadedFile)
    (df : DataFrame) (log : list (event weight WordCloud)) :
  pd_read_csv (getvalue file) = Ok df →
  Forall (λ c, col_cells c ≠ []) (select_dtypes_object df) →
  read_csv pd_read_csv file log
    = (Done (join [space] (column_major (text_cells df))), log)
  ∧ ∀ c, c ∈ select_dtypes_object df ↔ c ∈ df ∧ col_dtype c = object.
Proof.
  intros Hparse Hcells. split.
  - unfold read_csv, try_except, bind, call, ret. rewrite Hparse. simpl.
    do 2 f_equal. unfold text_of_frame, column_major, text_cells, str_cat.
    rewrite <- join_join_concat; [by rewrite <- list_fmap_compose|].
    by apply Forall_fmap.
  - intros c. unfold select_dtypes_object.
    rewrite list_elem_of_filter. tauto.
Qed.

Lemma read_csv_column_major_witness :
  read_csv (weight := N) (WordCloud := unit)
    (λ _, Ok [Column (lit "name") object [lit "ann"; lit "bob"];
              Column (lit "age") int64 [lit "31"; lit "27"];
              Column (lit "city") object [lit "oslo"; lit "rome"]])
    {| name := lit "people.csv"; type := lit "text/csv"; getvalue := [] |} []
  = (Done (lit "ann bob oslo rome"), []).
Proof.
  refine (proj1 (read_csv_column_major _ _ _ _ eq_refl _)).
  vm_compute. repeat constructor; discriminate.
Defined.

(** C2, as stated, fails: with two textual columns and two rows the cells
    come out column by column, not row by row. *)
Lemma read_csv_not_row_major :
  let df := [Column (lit "name") object [lit "ann"; lit "bob"];
             Column (lit "city") object [lit "oslo"; lit "rome"]] in
  let file :=
    {| name := lit "people.csv"; type := lit "text/csv"; getvalue := [] |} in
  read_csv (weight := N) (WordCloud := unit) (λ _, Ok df) file []
    = (Done (lit "ann bob oslo rome"), [])
  ∧ join [space] (row_major (text_cells df)) = lit "ann oslo bob rome"
  ∧ lit "ann bob oslo rome" ≠ lit "ann oslo bob rome".
Proof. vm_compute. split; [done|]. split; [done|discriminate]. Qed.

(** C8: [read_csv] catches what [pd.read_csv] raises, shows it as an error
    and returns the empty string; [read_text], [read_doc] and [read_pdf]
    let what their parser raises through, showing nothing. *)
Theorem read_csv_catches {weight WordCloud : Type}
    (decode : bytes → result str)
    (Document PdfReader : bytes → result (list str))
    (pd_read_csv : bytes → result DataFrame) (file : UploadedFile)
    (log : list (event weight WordCloud)) :
  read_csv pd_read_csv file log
    = match pd_read_csv (getvalue file) with
      | Ok df => (Done (text_of_frame df), log)
      | Err e =>
          (Done [],
           log ++ [st_error (lit "Error reading CSV file: " ++ exn_str e)])
      end
  ∧ read_text decode file log
    = match decode (getvalue file) with
      | Ok text => (Done text, log)
      | Err e => (Raise e, log)
      end
  ∧ read_doc Document file log
    = match Document (getvalue file) with
      | Ok paragraphs => (Done (join [space] paragraphs), log)
      | Err e => (Raise e, log)
      end
  ∧ read_pdf PdfReader file log
    = match PdfReader (getvalue file) with
      | Ok pages => (Done (join [space] (filter (λ t, t ≠ []) pages)), log)
      | Err e => (Raise e, log)
      end.
Proof.
  unfold read_csv, read_text, read_doc, read_pdf, try_except, bind, call,
    ret, emit.
  repeat split.
  - by destruct (pd_read_csv _).
  - by destruct (decode _).
  - by destruct (Document _).
  - by destruct (PdfReader _).
Qed.

(** ** The script: dispatch and the empty-text guard *)

Section ScriptFacts.

Variable STOPWORDS : gset str.
Variable lower : str → str.
Variable weight : Type.
Variable repr : weight → str.
Variable decode : bytes → result str.
Variable Document : bytes → result (list str).
Variable PdfReader : bytes → result (list str).
Variable pd_read_csv : bytes → result DataFrame.
Variable WordCloud : Type.
Variable generate : settings → str → result WordCloud.
Variable words_ : WordCloud → list (str * weight).
Variable savefig : WordCloud → bytes.
Variable sort_values : list (str * weight) → list (str * weight).

(** C7: whenever extraction returns a text that is empty or all
    whitespace, the run shows the empty-content error and ends there:
    after the extractor's own events the only event is that error, so
    the layout engine is not called and no figure, table or link is
    produced. *)
Theorem empty_text_halts (cfg : settings) (custom_stopwords : str)
    (file : UploadedFile) (text : str)
    (log log' : list (event weight WordCloud)) :
  extract decode Document PdfReader pd_read_csv file log
    = (Done text, log') →
  Forall (λ c, isspace c = true) text →
  process STOPWORDS lower weight repr decode Document PdfReader
    pd_read_csv WordCloud generate words_ savefig sort_values
    cfg custom_stopwords (Some file) log
  = (Done tt, log' ++ [st_error empty_message]).
Proof.
  intros Hextract Hblank. unfold process, bind. rewrite Hextract.
  apply strip_nil_iff in Hblank. by rewrite decide_True by done.
Qed.

(** With a text that is not blank, an engine that returns and a table
    that encodes, the run shows the preview, calls the layout engine on
    the filtered text, and shows the figure, its link, the top rows and
    the table's link, in this order. *)
Lemma render_events (cfg : settings) (additional : list str) (text : str)
    (wordcloud : WordCloud) (link : str)
    (log : list (event weight WordCloud)) :
  generate cfg (filter_stopwords STOPWORDS lower text additional)
    = Ok wordcloud →
  get_df_download_link repr (summarize words_ sort_values wordcloud)
    (lit "word_frequencies.csv") = Ok link →
  render STOPWORDS lower weight repr WordCloud generate words_ savefig
    sort_values cfg additional text log
  = (Done tt,
     log ++ [st_text _ _ (preview text);
             WordCloud_generate cfg
               (filter_stopwords STOPWORDS lower text additional);
             st_subheader _ _ (lit "Generated Word Cloud");
             st_pyplot _ _ wordcloud;
             st_markdown
               (get_plot_download_link savefig wordcloud
                  (lit "wordcloud.png"));
             st_subheader _ _ (lit "Word Frequency Analysis");
             st_dataframe _ _
               (take 20 (summarize words_ sort_values wordcloud));
             st_bar_chart _ _
               (take 10 (summarize words_ sort_values wordcloud));
             st_markdown link]).
Proof.
  intros Hgen Hlink. unfold render, bind, emit, call.
  rewrite Hgen, Hlink. by rewrite <- !app_assoc.
Qed.

(** Among the extractors only the unsupported-type branch stops the
    run. *)
Lemma extract_stopped (file : UploadedFile)
    (log log' : list (event weight WordCloud)) :
  extract decode Document PdfReader pd_read_csv file log = (Stopped, log')
  → dispatch file = None.
Proof.
  unfold extract. destruct (dispatch file) as [[]|]; [..|done];
    unfold read_text, read_doc, read_pdf, read_csv, try_except, bind,
      call, ret, emit.
  - by destruct (decode _).
  - by destruct (Document _).
  - by destruct (PdfReader _).
  - by destruct (pd_read_csv _).
Qed.

(** C10: a file whose MIME type is none of the four is still read by the
    tabular extractor when its name ends in [.csv]; no extractor is
    chosen exactly when the type is none of the four and the name does
    not end in [.csv]; and the run shows the unsupported-type error and
    stops exactly in that case. *)
Theorem dispatch_by_suffix (file : UploadedFile) :
  (¬ recognized (type file) →
   endswith (name file) (lit ".csv") = true →
   dispatch file = Some ReadCsv
   ∧ extract (weight := weight) (WordCloud := WordCloud)
       decode Document PdfReader pd_read_csv file
     = read_csv pd_read_csv file)
  ∧ (dispatch file = None
     ↔ ¬ recognized (type file)
       ∧ endswith (name file) (lit ".csv") = false)
  ∧ (∀ log : list (event weight WordCloud),
       dispatch file = None →
       extract decode Document PdfReader pd_read_csv file log
       = (Stopped, log ++ [st_error (lit "Unsupported file type")]))
  ∧ (∀ log log' : list (event weight WordCloud),
       extract decode Document PdfReader pd_read_csv file log
       = (Stopped, log') →
       dispatch file = None).
Proof.
  split; [|split; [|split]].
  - intros Hty Hname. unfold recognized in Hty.
    assert (dispatch file = Some ReadCsv) as Hd.
    { unfold dispatch. repeat case_decide; try tauto.
      rewrite Hname. by rewrite orb_true_r. }
    split; [done|]. unfold extract. by rewrite Hd.
  - unfold dispatch, recognized. repeat case_decide; try (split; [done|tauto]).
    destruct (bool_decide_reflect (type file = lit "text/csv")) as [Hcsv|Hcsv];
      [split; [done|tauto]|].
    simpl. destruct (endswith _ _); [by split; [|intros [_ ?]]|].
    split; [|done]. intros _. split; [tauto|done].
  - intros log Hd. unfold extract. by rewrite Hd.
  - apply extract_stopped.
Qed.

End ScriptFacts.

Lemma empty_text_halts_witness :
  process ∅ (λ s, s) N decimal_repr (λ data, Ok data) (λ _, Ok [])
    (λ _, Ok []) (λ _, Ok []) unit (λ _ _, Ok ()) (λ _, []) (λ _, [])
    (λ df, df) default_settings []
    (Some {| name := lit "blank.txt"; type := lit "text/plain";
             getvalue := [32; 10; 9] |}) []
  = (Done (), [st_error empty_message]).
Proof.
  apply (empty_text_halts ∅ (λ s, s) N decimal_repr (λ data, Ok data)
           (λ _, Ok []) (λ _, Ok []) (λ _, Ok []) unit (λ _ _, Ok ())
           (λ _, []) (λ _, []) (λ df, df) default_settings [] _
           [32; 10; 9] [] []).
  - reflexivity.
  - repeat constructor.
Defined.

Lemma dispatch_by_suffix_witness :
  dispatch {| name := lit "report.csv";
              type := lit "application/vnd.ms-excel"; getvalue := [] |}
  = Some ReadCsv.
Proof.
  refine (proj1 (proj1 (dispatch_by_suffix N (λ data, Ok data) (λ _, Ok [])
                          (λ _, Ok []) (λ _, Ok []) unit _) _ _)).
  - unfold recognized. intros [H|[H|[H|H]]]; discriminate H.
  - reflexivity.
Defined.

(** ** Base64 *)

Ltac ndiv := zify; Z.to_euclidean_division_equations; lia.

Lemma below_64 (P : N → bool) (n : N) :
  forallb P (N.of_nat <$> seq 0 64) = true → n < 64 → P n = true.
Proof.
  intros Hall Hn. rewrite forallb_forall in Hall. apply Hall.
  apply list_elem_of_In, list_elem_of_fmap. exists (N.to_nat n).
  split; [lia|]. apply elem_of_seq. lia.
Qed.

Lemma b64_char_facts (n : N) :
  b64_value (b64_char n) = Some (n mod 64)
  ∧ b64_char n ≠ b64_pad ∧ b64_char n ≠ dquote ∧ b64_char n < 128.
Proof.
  assert (n mod 64 < 64) as Hn by ndiv.
  assert (b64_char n = b64_char (n mod 64)) as ->.
  { unfold b64_char. by rewrite N.Div0.mod_mod. }
  revert Hn. generalize (n mod 64). clear n. intros n Hn.
  pose (P := λ i, bool_decide (b64_value (b64_char i) = Some i
                               ∧ b64_char i ≠ b64_pad
                               ∧ b64_char i ≠ dquote ∧ b64_char i < 128)).
  assert (P n = true) as HP by (by apply below_64; [vm_compute|]).
  apply bool_decide_eq_true in HP as (H1 & H2 & H3 & H4).
  done.
Qed.

Lemma b64_value_char (n : N) : b64_value (b64_char n) = Some (n mod 64).
Proof. apply b64_char_facts. Qed.

Lemma b64_char_pad (n : N) : (b64_char n =? b64_pad) = false.
Proof. apply N.eqb_neq, b64_char_facts. Qed.

Lemma triples_ind {A} (P : list A → Prop) :
  P [] → (∀ a, P [a]) → (∀ a b, P [a; b]) →
  (∀ a b c rest, P rest → P (a :: b :: c :: rest)) →
  ∀ l, P l.
Proof.
  intros H0 H1 H2 H3 l.
  enough (P l ∧ (∀ a, P (a :: l)) ∧ (∀ a b, P (a :: b :: l))) by tauto.
  induction l as [|x l (IH0 & IH1 & IH2)]; [done|].
  split; [done|]. split; [done|]. intros a b. by apply H3.
Qed.

Lemma b64encode_chars (data : bytes) :
  Forall (λ c, c ≠ dquote ∧ c < 128) (b64encode data).
Proof.
  assert (b64_pad ≠ dquote ∧ b64_pad < 128) as Hpad by done.
  assert (∀ n, b64_char n ≠ dquote ∧ b64_char n < 128) as Hchar.
  { intros n. destruct (b64_char_facts n) as (_ & _ & ? & ?). done. }
  induction data as [|a|a b|a b c rest IH] using triples_ind.
  - constructor.
  - repeat constructor; apply Hchar || apply Hpad.
  - repeat constructor; apply Hchar || apply Hpad.
  - change (b64encode (a :: b :: c :: rest))
      with (let n := (a mod 256) * 65536 + (b mod 256) * 256 + c mod 256 in
            [b64_char (n / 262144); b64_char (n / 4096); b64_char (n / 64);
             b64_char n] ++ b64encode rest).
    apply Forall_app. split; [|done]. repeat constructor; apply Hchar.
Qed.

Lemma b64decode_group (c0 c1 c2 c3 : char) (rest : str) :
  b64decode (c0 :: c1 :: c2 :: c3 :: rest)
  = (v0 ← b64_value c0;
     v1 ← b64_value c1;
     if c2 =? b64_pad then
       match rest with
       | [] => Some [v0 * 4 + v1 / 16]
       | _ => None
       end
     else
       v2 ← b64_value c2;
       if c3 =? b64_pad then
         match rest with
         | [] => Some [v0 * 4 + v1 / 16; (v1 mod 16) * 16 + v2 / 4]
         | _ => None
         end
       else
         v3 ← b64_value c3;
         data ← b64decode rest;
         Some (v0 * 4 + v1 / 16 :: (v1 mod 16) * 16 + v2 / 4
               :: (v2 mod 4) * 64 + v3 :: data)).
Proof. reflexivity. Qed.

(** Decoding what [b64encode] gives returns the octets. *)
Lemma b64decode_b64encode (data : bytes) :
  Forall (λ b, b < 256) data → b64decode (b64encode data) = Some data.
Proof.
  induction data as [|a|a b|a b c rest IH] using triples_ind; intros Hdata.
  - done.
  - apply Forall_cons in Hdata as [Ha _].
    unfold b64encode. cbv zeta. rewrite b64decode_group, !b64_value_char.
    simpl. do 2 f_equal. ndiv.
  - apply Forall_cons in Hdata as [Ha [Hb _]%Forall_cons].
    unfold b64encode. cbv zeta.
    rewrite b64decode_group, !b64_value_char, b64_char_pad.
    simpl. f_equal. f_equal; [ndiv|]. f_equal. ndiv.
  - apply Forall_cons in Hdata as [Ha [Hb [Hc Hrest]%Forall_cons]%Forall_cons].
    change (b64encode (a :: b :: c :: rest))
      with (let n := (a mod 256) * 65536 + (b mod 256) * 256 + c mod 256 in
            b64_char (n / 262144) :: b64_char (n / 4096) :: b64_char (n / 64)
            :: b64_char n :: b64encode rest).
    cbv zeta. rewrite b64decode_group, !b64_value_char, !b64_char_pad.
    rewrite IH by done. simpl. f_equal.
    f_equal; [ndiv|]. f_equal; [ndiv|]. f_equal. ndiv.
Qed.

(** ** Export links *)

Lemma removeprefix_app (p s : str) : removeprefix p (p ++ s) = Some s.
Proof. induction p as [|c p IH]; [done|]. simpl. by rewrite N.eqb_refl. Qed.

Lemma partition_at_app (c : char) (l r : str) :
  Forall (λ x, x ≠ c) l → partition_at c (l ++ c :: r) = Some (l, r).
Proof.
  induction 1 as [|x l Hx _ IH]; simpl.
  - by rewrite N.eqb_refl.
  - apply N.eqb_neq in Hx. by rewrite Hx, IH.
Qed.

Lemma parse_link_parts (m p f tail : str) :
  Forall (λ x, x ≠ 59) m →
  Forall (λ x, x ≠ dquote) p →
  Forall (λ x, x ≠ dquote) f →
  parse_link
    ((lit "<a href=" ++ [dquote] ++ lit "data:") ++ m ++ 59 :: lit "base64,"
     ++ p ++ dquote :: (lit " download=" ++ [dquote]) ++ f ++ dquote :: tail)
  = Some (DataLink m p f).
Proof.
  intros Hm Hp Hf. unfold parse_link.
  rewrite (removeprefix_app (lit "<a href=" ++ [dquote] ++ lit "data:")).
  cbn [mbind option_bind]. rewrite (partition_at_app 59 m) by done.
  cbn [mbind option_bind]. rewrite (removeprefix_app (lit "base64,")).
  cbn [mbind option_bind]. rewrite (partition_at_app dquote p) by done.
  cbn [mbind option_bind]. rewrite (removeprefix_app (lit " download=" ++ [dquote])).
  cbn [mbind option_bind]. by rewrite (partition_at_app dquote f) by done.
Qed.

Lemma parse_plot_href (plot_data filename : str) :
  Forall (λ x, x ≠ dquote) plot_data →
  Forall (λ x, x ≠ dquote) filename →
  parse_link (plot_href plot_data filename)
  = Some (DataLink (lit "file/png") plot_data filename).
Proof.
  intros Hp Hf.
  rewrite <- (parse_link_parts (lit "file/png") plot_data filename
                (lit ">Download Plot</a>")); [done| |done..].
  vm_compute. repeat constructor; discriminate.
Qed.

Lemma parse_csv_href (b64 filename : str) :
  Forall (λ x, x ≠ dquote) b64 →
  Forall (λ x, x ≠ dquote) filename →
  parse_link (csv_href b64 filename)
  = Some (DataLink (lit "file/csv") b64 filename).
Proof.
  intros Hp Hf.
  rewrite <- (parse_link_parts (lit "file/csv") b64 filename
                (lit ">Download CSV File</a>")); [done| |done..].
  vm_compute. repeat constructor; discriminate.
Qed.

Lemma b64encode_no_quote (data : bytes) :
  Forall (λ x, x ≠ dquote) (b64encode data).
Proof. eapply Forall_impl; [apply b64encode_chars|]. by intros c [? _]. Qed.

(** C9 (as the code has it): the image link the script shows is a data
    URI of media type [file/png] that embeds the base64 of the saved PNG
    octets and names the fixed file [wordcloud.png]; the table link, when
    the csv text encodes, is a data URI of media type [file/csv] that
    embeds the base64 of the csv octets and names [word_frequencies.csv]. *)
Theorem export_links_spec {Figure weight : Type} (savefig : Figure → bytes)
    (repr : weight → str) (plot : Figure) (df : list (str * weight)) :
  parse_link (get_plot_download_link savefig plot (lit "wordcloud.png"))
    = Some (DataLink (lit "file/png") (b64encode (savefig plot))
              (lit "wordcloud.png"))
  ∧ get_df_download_link repr df (lit "word_frequencies.csv")
    = match encode (to_csv repr df) with
      | Ok data => Ok (csv_href (b64encode data) (lit "word_frequencies.csv"))
      | Err e => Err e
      end
  ∧ ∀ data,
      parse_link (csv_href (b64encode data) (lit "word_frequencies.csv"))
      = Some (DataLink (lit "file/csv") (b64encode data)
                (lit "word_frequencies.csv")).
Proof.
  split; [|split; [done|intros data]].
  - apply parse_plot_href; [apply b64encode_no_quote|].
    vm_compute. repeat constructor; discriminate.
  - apply parse_csv_href; [apply b64encode_no_quote|].
    vm_compute. repeat constructor; discriminate.
Qed.

(** C9, as stated, fails: the media type of the image link is [file/png],
    not [image/png], and that of the table link is [file/csv], not
    [text/csv]. *)
Lemma export_links_media_type :
  mime <$> parse_link
             (get_plot_download_link (Figure := unit)
                (λ _, [137; 80; 78; 71]) () (lit "wordcloud.png"))
    = Some (lit "file/png")
  ∧ lit "file/png" ≠ lit "image/png"
  ∧ (csv_href (b64encode [87; 111; 114; 100]) (lit "word_frequencies.csv")
       = csv_href (lit "V29yZA==") (lit "word_frequencies.csv")
     ∧ mime <$> parse_link
                  (csv_href (lit "V29yZA==") (lit "word_frequencies.csv"))
       = Some (lit "file/csv"))
  ∧ lit "file/csv" ≠ lit "text/csv".
Proof. vm_compute. repeat split; discriminate. Qed.

(** ** Reading the csv text back *)

Lemma csv_special_false (c : char) :
  csv_special c = false →
  (c =? comma) = false ∧ (c =? dquote) = false ∧ (c =? newline) = false.
Proof.
  unfold csv_special. rewrite !orb_false_iff. tauto.
Qed.

Lemma csv_reader_plain (acc : str) (row : list str) (f rest : str) :
  Forall (λ c, csv_special c = false) f →
  csv_reader InField acc row (f ++ rest)
  = csv_reader InField (acc ++ f) row rest.
Proof.
  intros Hf. revert acc.
  induction Hf as [|c f Hc _ IH]; intros acc; [by rewrite app_nil_r|].
  apply csv_special_false in Hc as (Hc1 & Hc2 & Hc3).
  simpl. rewrite Hc1, Hc2, Hc3. simpl. rewrite IH. by rewrite <- app_assoc.
Qed.

Lemma csv_reader_quoted (acc : str) (row : list str) (f rest : str) :
  csv_reader InQuoted acc row (csv_escape f ++ dquote :: rest)
  = csv_reader QuoteInQuoted (acc ++ f) row rest.
Proof.
  revert acc. induction f as [|c f IH]; intros acc.
  - simpl. by rewrite app_nil_r.
  - unfold csv_escape in *. simpl flat_map.
    destruct (N.eqb_spec c dquote) as [->|Hc].
    + simpl. rewrite IH. by rewrite <- app_assoc.
    + apply N.eqb_neq in Hc. simpl. rewrite Hc, IH. by rewrite <- app_assoc.
Qed.

Lemma existsb_false_Forall {A} (p : A → bool) (l : list A) :
  existsb p l = false → Forall (λ x, p x = false) l.
Proof.
  induction l as [|x l IH]; [constructor|]. simpl.
  intros [? ?]%orb_false_iff. constructor; auto.
Qed.

Lemma csv_reader_open_quote (row : list str) (s : str) :
  csv_reader InField [] row (dquote :: s) = csv_reader InQuoted [] row s.
Proof. reflexivity. Qed.

(** A written field followed by a comma reads back as that field. *)
Lemma csv_reader_field_comma (row : list str) (f rest : str) :
  csv_reader InField [] row (csv_field f ++ comma :: rest)
  = csv_reader InField [] (row ++ [f]) rest.
Proof.
  unfold csv_field. destruct (existsb csv_special f) eqn:Hf.
  - replace ((dquote :: csv_escape f ++ [dquote]) ++ comma :: rest)
      with (dquote :: csv_escape f ++ dquote :: comma :: rest)
      by (simpl; by rewrite <- app_assoc).
    rewrite csv_reader_open_quote. by rewrite csv_reader_quoted.
  - apply existsb_false_Forall in Hf. by rewrite csv_reader_plain.
Qed.

(** A written field followed by the line end closes the record. *)
Lemma csv_reader_field_newline (row : list str) (f rest : str) :
  csv_reader InField [] row (csv_field f ++ newline :: rest)
  = (row ++ [f]) :: csv_reader InField [] [] rest.
Proof.
  unfold csv_field. destruct (existsb csv_special f) eqn:Hf.
  - replace ((dquote :: csv_escape f ++ [dquote]) ++ newline :: rest)
      with (dquote :: csv_escape f ++ dquote :: newline :: rest)
      by (simpl; by rewrite <- app_assoc).
    rewrite csv_reader_open_quote. by rewrite csv_reader_quoted.
  - apply existsb_false_Forall in Hf. by rewrite csv_reader_plain.
Qed.

Lemma csv_reader_row (a b rest : str) :
  csv_reader InField [] [] (csv_row [a; b] ++ rest)
  = [a; b] :: csv_reader InField [] [] rest.
Proof.
  unfold csv_row. simpl join.
  replace (((csv_field a ++ comma :: csv_field b) ++ [newline]) ++ rest)
    with (csv_field a ++ comma :: csv_field b ++ newline :: rest)
    by (by rewrite <- !app_assoc).
  by rewrite csv_reader_field_comma, csv_reader_field_newline.
Qed.

Lemma csv_reader_to_csv {weight} (repr : weight → str)
    (df : list (str * weight)) :
  csv_reader InField [] [] (to_csv repr df)
  = [lit "Word"; lit "Frequency"] :: ((λ r, [r.1; repr r.2]) <$> df).
Proof.
  unfold to_csv. rewrite csv_reader_row. f_equal.
  induction df as [|r df IH]; [done|].
  simpl flat_map. rewrite csv_reader_row. by rewrite IH.
Qed.

Lemma read_table_to_csv {weight} (repr : weight → str)
    (float : str → option weight) (df : list (str * weight)) :
  Forall (λ r, float (repr r.2) = Some r.2) df →
  read_table float (to_csv repr df) = Some df.
Proof.
  intros Hdf. unfold read_table. rewrite csv_reader_to_csv.
  rewrite decide_True by done.
  induction Hdf as [|[w x] df Hr _ IH]; [done|].
  rewrite fmap_cons. cbn [mapM]. rewrite IH.
  unfold read_row. cbn [fst snd] in *. by rewrite Hr.
Qed.

(** ** UTF-8 *)

Lemma encode_char_scalar (c : char) :
  unicode_scalar c → is_Some (encode_char c).
Proof.
  intros [Hmax Hsur]. unfold encode_char, is_surrogate.
  destruct (N.ltb_spec c 128); [done|].
  destruct (N.ltb_spec c 2048); [done|].
  destruct (N.ltb_spec c 1114112); [|lia].
  destruct (N.leb_spec 55296 c), (N.leb_spec c 57343);
    simpl; destruct (c <? 65536); done || lia.
Qed.

Lemma encode_char_octets (c : char) (bs : bytes) :
  encode_char c = Some bs → Forall (λ b, b < 256) bs.
Proof.
  unfold encode_char.
  destruct (N.ltb_spec c 128); [intros [= <-]; repeat constructor; ndiv|].
  destruct (N.ltb_spec c 2048); [intros [= <-]; repeat constructor; ndiv|].
  destruct (N.ltb_spec c 65536).
  { destruct (is_surrogate c); [done|].
    intros [= <-]; repeat constructor; ndiv. }
  destruct (N.ltb_spec c 1114112); [|done].
  intros [= <-]; repeat constructor; ndiv.
Qed.

Lemma utf8_decode_char (c : char) (bs rest : bytes) :
  encode_char c = Some bs →
  utf8_decode (bs ++ rest) = cons c <$> utf8_decode rest.
Proof.
  unfold encode_char.
  destruct (N.ltb_spec c 128) as [H1|H1].
  { intros [= <-]. simpl. by rewrite (proj2 (N.ltb_lt _ _) H1). }
  destruct (N.ltb_spec c 2048) as [H2|H2].
  { intros [= <-]. simpl.
    rewrite (proj2 (N.ltb_ge _ _)) by ndiv.
    rewrite (proj2 (N.ltb_lt (192 + c / 64) 224)) by ndiv.
    do 2 f_equal. ndiv. }
  destruct (N.ltb_spec c 65536) as [H3|H3].
  { destruct (is_surrogate c); [done|]. intros [= <-]. simpl.
    rewrite (proj2 (N.ltb_ge _ _)) by ndiv.
    rewrite (proj2 (N.ltb_ge (224 + c / 4096) 224)) by ndiv.
    rewrite (proj2 (N.ltb_lt (224 + c / 4096) 240)) by ndiv.
    do 2 f_equal. ndiv. }
  destruct (N.ltb_spec c 1114112) as [H4|H4]; [|done].
  intros [= <-]. simpl.
  rewrite (proj2 (N.ltb_ge _ _)) by ndiv.
  rewrite (proj2 (N.ltb_ge (240 + c / 262144) 224)) by ndiv.
  rewrite (proj2 (N.ltb_ge (240 + c / 262144) 240)) by ndiv.
  do 2 f_equal. ndiv.
Qed.

(** Text made of scalar values encodes. *)
Lemma encode_scalar (s : str) :
  Forall unicode_scalar s → ∃ data, encode s = Ok data.
Proof.
  induction 1 as [|c s Hc _ [data IH]]; [by exists []|].
  destruct (encode_char_scalar c Hc) as [bs Hbs].
  exists (bs ++ data). simpl. by rewrite Hbs, IH.
Qed.

(** Decoding what [encode] gives returns the text. *)
Lemma utf8_decode_encode (s : str) (data : bytes) :
  encode s = Ok data →
  utf8_decode data = Some s ∧ Forall (λ b, b < 256) data.
Proof.
  revert data. induction s as [|c s IH]; intros data; simpl.
  - by intros [= <-].
  - destruct (encode_char c) as [bs|] eqn:Hc; [|done].
    destruct (encode s) as [rest|] eqn:Hs; [|done].
    intros [= <-]. destruct (IH rest eq_refl) as [IH1 IH2]. split.
    + rewrite (utf8_decode_char c) by done. by rewrite IH1.
    + apply Forall_app. split; [by eapply encode_char_octets|done].
Qed.

(** ** The table export, written and read back *)

Lemma Forall_join {P : char → Prop} (sep : str) (l : list str) :
  Forall P sep → Forall (Forall P) l → Forall P (join sep l).
Proof.
  intros Hsep. induction 1 as [|x l Hx Hl IH]; [constructor|].
  destruct l as [|y l]; [done|].
  change (join sep (x :: y :: l)) with (x ++ sep ++ join sep (y :: l)).
  rewrite !Forall_app. auto.
Qed.

Lemma csv_field_scalar (f : str) :
  Forall unicode_scalar f → Forall unicode_scalar (csv_field f).
Proof.
  assert (unicode_scalar dquote) as Hq by (split; [done|intros [? _]; done]).
  intros Hf. unfold csv_field. destruct (existsb csv_special f); [|done].
  apply Forall_cons. split; [done|]. apply Forall_app.
  split; [|by apply Forall_singleton].
  unfold csv_escape. induction Hf as [|c f Hc _ IH]; [by apply Forall_nil|].
  simpl. apply Forall_app. split; [|done].
  destruct (c =? dquote); repeat (apply Forall_cons; split; [done|]);
    by apply Forall_nil.
Qed.

Lemma csv_row_scalar (fields : list str) :
  Forall (Forall unicode_scalar) fields →
  Forall unicode_scalar (csv_row fields).
Proof.
  assert (∀ c, c < 128 → unicode_scalar c) as Hascii.
  { intros c Hc. split; lia. }
  intros Hfields. unfold csv_row. apply Forall_app. split.
  - apply Forall_join; [repeat constructor; by apply Hascii|].
    apply Forall_fmap. eapply Forall_impl; [done|]. apply csv_field_scalar.
  - repeat constructor; by apply Hascii.
Qed.

Lemma to_csv_scalar {weight} (repr : weight → str)
    (df : list (str * weight)) :
  Forall (λ r, Forall unicode_scalar r.1 ∧ Forall unicode_scalar (repr r.2))
    df →
  Forall unicode_scalar (to_csv repr df).
Proof.
  intros Hdf. unfold to_csv. apply Forall_app. split.
  - apply csv_row_scalar. repeat constructor; vm_compute; intros [? ?]; done.
  - induction Hdf as [|r df [Hw Hx] _ IH]; [constructor|].
    simpl. apply Forall_app. split; [|done].
    apply csv_row_scalar. by repeat constructor.
Qed.

(** ASCII text is Unicode text. *)
Lemma ascii_scalar (s : str) :
  forallb (λ c, c <? 128) s = true → Forall unicode_scalar s.
Proof.
  intros Hs. apply Forall_forall. intros c Hc.
  rewrite forallb_forall in Hs. apply list_elem_of_In, Hs in Hc.
  apply N.ltb_lt in Hc. split; lia.
Qed.



(** ** The frequency summary *)

Lemma insert_after_ties_perm (r : str * N) (l : list (str * N)) :
  Permutation (r :: l) (insert_after_ties r l).
Proof.
  induction l as [|x l IH]; [done|]. simpl.
  destruct (x.2 <? r.2); [done|].
  rewrite <- IH. apply perm_swap.
Qed.

Lemma insert_after_ties_hd (a r : str * N) (l : list (str * N)) :
  HdRel (λ r1 r2, r2.2 ≤ r1.2) a l → r.2 ≤ a.2 →
  HdRel (λ r1 r2, r2.2 ≤ r1.2) a (insert_after_ties r l).
Proof.
  intros Hl Hr. destruct l as [|x l]; simpl; [by constructor|].
  destruct (x.2 <? r.2); constructor; [done|]. by inversion Hl.
Qed.

Lemma insert_after_ties_sorted (r : str * N) (l : list (str * N)) :
  descending N.le l → descending N.le (insert_after_ties r l).
Proof.
  unfold descending. induction 1 as [|x l Hl IH Hx]; simpl.
  - by repeat constructor.
  - destruct (N.ltb_spec x.2 r.2) as [Hlt|Hge].
    + constructor; [by constructor|]. constructor. lia.
    + constructor; [done|]. by apply insert_after_ties_hd.
Qed.

(** [sort_ties_last] does what [sort_values] is documented to do. *)
Lemma sort_ties_last_sorts : sorts_descending N.le sort_ties_last.
Proof.
  intros df. unfold sort_ties_last. induction df as [|r df [IHp IHs]].
  - split; [done|constructor].
  - simpl. split.
    + rewrite <- insert_after_ties_perm. by constructor.
    + by apply insert_after_ties_sorted.
Qed.




(** * Further properties of the code *)

(** ** More on the stopword filter *)

Lemma join_tokens_nil (sep : str) (l : list str) :
  Forall token l → join sep l = [] → l = [].
Proof.
  intros Hl Hj. destruct Hl as [|w l [Hw _] _]; [done|].
  destruct l; simpl in Hj; [done|]. by destruct w.
Qed.

Section StopwordMore.

Variable STOPWORDS : gset str.
Variable lower : str → str.

(** X1: filtering with one list of extra stopwords and then with another
    is filtering once with both lists. *)
Theorem filter_stopwords_compose (T : str) (S1 S2 : list str) :
  filter_stopwords STOPWORDS lower
    (filter_stopwords STOPWORDS lower T S1) S2
  = filter_stopwords STOPWORDS lower T (S1 ++ S2).
Proof.
  unfold filter_stopwords at 1. cbv zeta. rewrite split_filter_stopwords.
  unfold filter_stopwords. cbv zeta. f_equal.
  rewrite list_filter_filter. apply list_filter_iff. intros w.
  unfold allstopwords.
  rewrite !elem_of_union, !elem_of_list_to_set, elem_of_app. tauto.
Qed.

(** X2: only the set of extra stopwords matters, not their order nor how
    often each is listed. *)
Theorem filter_stopwords_set (T : str) (S S' : list str) :
  (∀ w, w ∈ S ↔ w ∈ S') →
  filter_stopwords STOPWORDS lower T S
  = filter_stopwords STOPWORDS lower T S'.
Proof.
  intros HS. unfold filter_stopwords. cbv zeta. f_equal.
  apply list_filter_iff. intros w. unfold allstopwords.
  rewrite !elem_of_union, !elem_of_list_to_set. by rewrite HS.
Qed.

(** X3: with more extra stopwords the result keeps a sub-sequence of the
    tokens it kept before; no token comes back or changes place. *)
Theorem filter_stopwords_more (T : str) (S S' : list str) :
  (∀ w, w ∈ S → w ∈ S') →
  split (filter_stopwords STOPWORDS lower T S')
    `sublist_of` split (filter_stopwords STOPWORDS lower T S).
Proof.
  intros HS. rewrite !split_filter_stopwords.
  set (P' := λ w, lower w ∉ allstopwords STOPWORDS S').
  set (P := λ w, lower w ∉ allstopwords STOPWORDS S).
  assert (filter P' (split T) = filter P' (filter P (split T))) as ->.
  { rewrite list_filter_filter. apply list_filter_iff. intros w.
    unfold P, P', allstopwords.
    rewrite !elem_of_union, !elem_of_list_to_set. specialize (HS (lower w)).
    tauto. }
  apply sublist_filter.
Qed.

(** X4: the result is the empty string exactly when every token of the
    text is a stopword (in particular for a blank text); the layout
    engine is then handed an empty text. *)
Theorem filter_stopwords_empty_iff (T : str) (S : list str) :
  filter_stopwords STOPWORDS lower T S = []
  ↔ Forall (λ w, lower w ∈ STOPWORDS ∪ list_to_set S) (split T).
Proof.
  unfold filter_stopwords, allstopwords. cbv zeta. split.
  - intros Hj. apply join_tokens_nil in Hj;
      [|apply Forall_token_filter, split_tokens].
    induction (split T) as [|w l IH]; [constructor|].
    rewrite filter_cons in Hj. destruct (decide _) as [Hw|Hw]; [done|].
    constructor; [|by apply IH].
    by destruct (decide (lower w ∈ STOPWORDS ∪ list_to_set S)).
  - intros Hall. induction Hall as [|w l Hw _ IH]; [done|].
    rewrite filter_cons. by rewrite decide_False by (by intros ?).
Qed.

(** X5: when lowercasing never empties a word, an empty extra stopword
    (what a doubled or trailing comma in the custom text leaves) removes
    nothing: the result is the same without it. *)
Theorem filter_stopwords_empty_token (T : str) (S : list str) :
  (∀ w, lower w = [] → w = []) →
  filter_stopwords STOPWORDS lower T S
  = filter_stopwords STOPWORDS lower T (filter (λ w, w ≠ []) S).
Proof.
  intros Hlower. unfold filter_stopwords, allstopwords. cbv zeta.
  f_equal. pose proof (split_tokens T) as Htok.
  induction Htok as [|w l [Hw _] _ IH]; [done|].
  rewrite !filter_cons, IH.
  assert (lower w ≠ []) as Hlw by (intros ?%Hlower; done).
  assert (lower w ∉ STOPWORDS ∪ list_to_set S
          ↔ lower w ∉ STOPWORDS ∪ list_to_set (filter (λ w, w ≠ []) S)) as Hiff.
  { rewrite !elem_of_union, !elem_of_list_to_set, list_elem_of_filter. tauto. }
  destruct (decide (lower w ∉ STOPWORDS ∪ list_to_set S)) as [H1|H1].
  - by rewrite decide_True by (by apply Hiff).
  - by rewrite decide_False by (by rewrite <- Hiff).
Qed.

End StopwordMore.

Lemma filter_stopwords_set_witness :
  filter_stopwords ∅ ascii_lower (lit "the cat and the hat")
    [lit "the"; lit "and"; lit "the"]
  = filter_stopwords ∅ ascii_lower (lit "the cat and the hat")
      [lit "and"; lit "the"].
Proof.
  apply (filter_stopwords_set ∅ ascii_lower). intros w.
  rewrite !elem_of_cons. tauto.
Defined.

Lemma filter_stopwords_more_witness :
  split (filter_stopwords ∅ ascii_lower (lit "the cat and the hat")
           [lit "the"; lit "and"])
    `sublist_of`
  split (filter_stopwords ∅ ascii_lower (lit "the cat and the hat")
           [lit "the"]).
Proof.
  apply (filter_stopwords_more ∅ ascii_lower). intros w.
  rewrite !elem_of_cons. tauto.
Defined.

Lemma filter_stopwords_empty_token_witness :
  filter_stopwords ∅ ascii_lower (lit "the cat")
    (additional_stopwords (lit "the,,"))
  = filter_stopwords ∅ ascii_lower (lit "the cat")
      (filter (λ w, w ≠ []) (additional_stopwords (lit "the,,"))).
Proof.
  apply (filter_stopwords_empty_token ∅ ascii_lower).
  intros w Hw. by destruct w.
Defined.

(** ** What the extractors keep of the document *)

Lemma split_from_app_space (cur a b : str) :
  split_from cur (a ++ space :: b) = split_from cur a ++ split b.
Proof.
  revert cur. induction a as [|c a IH]; intros cur.
  - simpl. by destruct cur.
  - simpl. destruct (isspace c); [|by apply IH].
    destruct cur; by rewrite IH.
Qed.

(** The tokens of texts joined by single spaces are the tokens of the
    texts, one text after the other. *)
Lemma split_join_concat (l : list str) :
  split (join [space] l) = concat (split <$> l).
Proof.
  induction l as [|x l IH]; [done|]. destruct l as [|y l].
  - simpl. by rewrite app_nil_r.
  - change (join [space] (x :: y :: l))
      with (x ++ space :: join [space] (y :: l)).
    unfold split at 1. rewrite split_from_app_space. by rewrite IH.
Qed.

Lemma split_blank (s : str) :
  Forall (λ c, isspace c = true) s → split s = [].
Proof.
  unfold split. induction 1 as [|c s Hc _ IH]; [done|]. simpl. by rewrite Hc.
Qed.

Lemma concat_split_concat (ls : list (list str)) :
  concat (split <$> concat ls)
  = concat ((λ l, concat (split <$> l)) <$> ls).
Proof.
  induction ls as [|l ls IH]; [done|].
  simpl. by rewrite fmap_app, concat_app, IH.
Qed.

(** X6: [read_doc] returns a text whose tokens are the tokens of the
    paragraphs, in document order; paragraph boundaries neither merge nor
    lose a word. *)
Theorem read_doc_tokens {weight WordCloud : Type}
    (Document : bytes → result (list str)) (file : UploadedFile)
    (paragraphs : list str) (log : list (event weight WordCloud)) :
  Document (getvalue file) = Ok paragraphs →
  ∃ text,
    read_doc Document file log = (Done text, log)
    ∧ split text = concat (split <$> paragraphs).
Proof.
  intros Hdoc. exists (join [space] paragraphs). split.
  - unfold read_doc, bind, call, ret. by rewrite Hdoc.
  - apply split_join_concat.
Qed.

Lemma read_doc_tokens_witness :
  ∃ text,
    read_doc (weight := N) (WordCloud := unit)
      (λ _, Ok [lit "Hello  world"; lit ""; lit " again "])
      {| name := lit "a.docx"; type := docx_type; getvalue := [] |} []
    = (Done text, [])
    ∧ split text
      = concat (split <$> [lit "Hello  world"; lit ""; lit " again "]).
Proof. by apply (read_doc_tokens (λ _, Ok _)). Defined.

Lemma concat_split_nonempty (pages : list str) :
  concat (split <$> filter (λ t, t ≠ []) pages) = concat (split <$> pages).
Proof.
  induction pages as [|p pages IH]; [done|].
  rewrite filter_cons. case_decide as Hp.
  - rewrite !fmap_cons. cbn [concat]. f_equal. exact IH.
  - subst p. exact IH.
Qed.

(** X7: [read_pdf] returns a text whose tokens are the tokens of the
    pages, in page order; pages without text add nothing, and when no
    page has text the result is the empty string. *)
Theorem read_pdf_tokens {weight WordCloud : Type}
    (PdfReader : bytes → result (list str)) (file : UploadedFile)
    (pages : list str) (log : list (event weight WordCloud)) :
  PdfReader (getvalue file) = Ok pages →
  ∃ text,
    read_pdf PdfReader file log = (Done text, log)
    ∧ split text = concat (split <$> pages)
    ∧ (Forall (λ page_text, page_text = []) pages → text = []).
Proof.
  intros Hpdf. exists (join [space] (filter (λ t, t ≠ []) pages)).
  split; [|split].
  - unfold read_pdf, bind, call, ret. by rewrite Hpdf.
  - rewrite split_join_concat. apply concat_split_nonempty.
  - clear Hpdf. intros Hall. induction Hall as [|p pages -> _ IH]; [done|].
    rewrite filter_cons. by case_decide.
Qed.

Lemma read_pdf_tokens_witness :
  ∃ text,
    read_pdf (weight := N) (WordCloud := unit)
      (λ _, Ok [lit "page one"; lit ""; lit "page three"])
      {| name := lit "a.pdf"; type := lit "application/pdf";
         getvalue := [] |} []
    = (Done text, [])
    ∧ split text
      = concat (split <$> [lit "page one"; lit ""; lit "page three"])
    ∧ (Forall (λ page_text, page_text = [])
         [lit "page one"; lit ""; lit "page three"] → text = []).
Proof. by apply (read_pdf_tokens (λ _, Ok _)). Defined.

(** X8: for every table that parses, with or without rows, the tokens of
    what [read_csv] returns are the tokens of the cells of the textual
    columns, column after column and top to bottom within a column. *)
Theorem read_csv_tokens {weight WordCloud : Type}
    (pd_read_csv : bytes → result DataFrame) (file : UploadedFile)
    (df : DataFrame) (log : list (event weight WordCloud)) :
  pd_read_csv (getvalue file) = Ok df →
  ∃ text,
    read_csv pd_read_csv file log = (Done text, log)
    ∧ split text = concat (split <$> column_major (text_cells df)).
Proof.
  intros Hparse. exists (text_of_frame df). split.
  - unfold read_csv, try_except, bind, call, ret. by rewrite Hparse.
  - unfold text_of_frame, column_major, text_cells, str_cat.
    rewrite split_join_concat, concat_split_concat.
    rewrite <- !list_fmap_compose. f_equal. apply list_fmap_ext.
    intros _ c _. simpl. apply split_join_concat.
Qed.

Lemma read_csv_tokens_witness :
  ∃ text,
    read_csv (weight := N) (WordCloud := unit)
      (λ _, Ok [Column (lit "title") object [lit "red fox"; lit "nan"];
                Column (lit "n") int64 [lit "1"; lit "2"];
                Column (lit "note") object [lit ""; lit "ok"]])
      {| name := lit "a.csv"; type := lit "text/csv"; getvalue := [] |} []
    = (Done text, [])
    ∧ split text
      = concat (split <$> column_major
                  (text_cells
                     [Column (lit "title") object [lit "red fox"; lit "nan"];
                      Column (lit "n") int64 [lit "1"; lit "2"];
                      Column (lit "note") object [lit ""; lit "ok"]])).
Proof. by apply (read_csv_tokens (λ _, Ok _)). Defined.

(** ** Runs that end in the empty-content error or in an exception *)

Section RunMore.

Variable STOPWORDS : gset str.
Variable lower : str → str.
Variable weight : Type.
Variable repr : weight → str.
Variable decode : bytes → result str.
Variable Document : bytes → result (list str).
Variable PdfReader : bytes → result (list str).
Variable pd_read_csv : bytes → result DataFrame.
Variable WordCloud : Type.
Variable generate : settings → str → result WordCloud.
Variable words_ : WordCloud → list (str * weight).
Variable savefig : WordCloud → bytes.
Variable sort_values : list (str * weight) → list (str * weight).

(** X9: a table that parses but has no text in its textual columns (only
    numeric columns, no data row, or blank cells only) is reported with
    the empty-content error, and nothing else is shown. *)
Theorem blank_table_reported (cfg : settings) (custom_stopwords : str)
    (file : UploadedFile) (df : DataFrame)
    (log : list (event weight WordCloud)) :
  dispatch file = Some ReadCsv →
  pd_read_csv (getvalue file) = Ok df →
  Forall (λ c, Forall (Forall (λ x, isspace x = true)) (col_cells c))
    (select_dtypes_object df) →
  process STOPWORDS lower weight repr decode Document PdfReader
    pd_read_csv WordCloud generate words_ savefig sort_values
    cfg custom_stopwords (Some file) log
  = (Done tt, log ++ [st_error empty_message]).
Proof.
  intros Hd Hparse Hblank.
  unfold process, bind, extract. rewrite Hd.
  unfold read_csv, try_except, bind, call, ret. rewrite Hparse.
  rewrite decide_True; [done|]. apply strip_nil_iff.
  unfold text_of_frame. apply Forall_join; [by repeat constructor|].
  apply Forall_fmap. eapply Forall_impl; [done|]. intros c Hc.
  apply Forall_join; [by repeat constructor|done].
Qed.

(** X10: when [pd.read_csv] raises, the run shows the csv error and then
    the empty-content error, and ends normally with nothing else shown. *)
Theorem csv_failure_reported (cfg : settings) (custom_stopwords : str)
    (file : UploadedFile) (e : exn) (log : list (event weight WordCloud)) :
  dispatch file = Some ReadCsv →
  pd_read_csv (getvalue file) = Err e →
  process STOPWORDS lower weight repr decode Document PdfReader
    pd_read_csv WordCloud generate words_ savefig sort_values
    cfg custom_stopwords (Some file) log
  = (Done tt,
     log ++ [st_error (lit "Error reading CSV file: " ++ exn_str e);
             st_error empty_message]).
Proof.
  intros Hd Hparse. unfold process, bind, extract. rewrite Hd.
  unfold read_csv, try_except, bind, call, ret, emit. rewrite Hparse.
  rewrite decide_True by done. unfold emit. by rewrite <- app_assoc.
Qed.

(** X11: a PDF none of whose pages has text other than whitespace (a
    scanned document) is reported with the empty-content error, and
    nothing else is shown. *)
Theorem scanned_pdf_reported (cfg : settings) (custom_stopwords : str)
    (file : UploadedFile) (pages : list str)
    (log : list (event weight WordCloud)) :
  dispatch file = Some ReadPdf →
  PdfReader (getvalue file) = Ok pages →
  Forall (Forall (λ x, isspace x = true)) pages →
  process STOPWORDS lower weight repr decode Document PdfReader
    pd_read_csv WordCloud generate words_ savefig sort_values
    cfg custom_stopwords (Some file) log
  = (Done tt, log ++ [st_error empty_message]).
Proof.
  intros Hd Hpdf Hblank. unfold process, bind, extract. rewrite Hd.
  unfold read_pdf, bind, call, ret. rewrite Hpdf.
  rewrite decide_True; [done|]. apply strip_nil_iff.
  apply Forall_join; [by repeat constructor|].
  clear Hpdf. induction Hblank as [|p pages Hp _ IH]; [constructor|].
  rewrite filter_cons. case_decide; [by constructor|done].
Qed.

(** X12: what the text decoder, the docx parser or the pdf parser raises
    ends the run with that exception; the script shows no message of its
    own and goes no further. *)
Theorem parser_exception_ends_run (cfg : settings) (custom_stopwords : str)
    (file : UploadedFile) (e : exn) (log : list (event weight WordCloud)) :
  (dispatch file = Some ReadText ∧ decode (getvalue file) = Err e)
  ∨ (dispatch file = Some ReadDoc ∧ Document (getvalue file) = Err e)
  ∨ (dispatch file = Some ReadPdf ∧ PdfReader (getvalue file) = Err e) →
  process STOPWORDS lower weight repr decode Document PdfReader
    pd_read_csv WordCloud generate words_ savefig sort_values
    cfg custom_stopwords (Some file) log
  = (Raise e, log).
Proof.
  unfold process, bind, extract, read_text, read_doc, read_pdf, bind, call.
  intros [[-> ->]|[[-> ->]|[-> ->]]]; done.
Qed.

End RunMore.

(** ** The preview *)

(** X13: the preview is the whole text when it has at most 1000
    characters, and otherwise its first 1000 characters followed by three
    dots; it never has more than 1003 characters and always starts with
    the text's first 1000 characters. *)
Theorem preview_spec (text : str) :
  ((length text ≤ 1000)%nat → preview text = text)
  ∧ ((1000 < length text)%nat →
     preview text = take 1000 text ++ lit "..."
     ∧ length (preview text) = 1003%nat)
  ∧ (length (preview text) ≤ 1003)%nat
  ∧ take 1000 (preview text) = take 1000 text.
Proof.
  unfold preview, upto.
  destruct (Nat.ltb_spec 1000 (length text)) as [Hlong|Hshort].
  - assert (length (take 1000 text ++ lit "...") = 1003%nat) as Hlen.
    { rewrite length_app, length_take. change (length (lit "...")) with 3%nat.
      lia. }
    split; [lia|]. split; [done|]. split; [lia|].
    rewrite take_app_le by (rewrite length_take; lia).
    apply take_idemp.
  - rewrite app_nil_r. rewrite !(take_ge text 1000) by done.
    split; [done|]. split; [lia|]. split; [lia|done].
Qed.

(** ** When the layout engine is called *)

Section EngineCalls.

Variable STOPWORDS : gset str.
Variable lower : str → str.
Variable weight : Type.
Variable repr : weight → str.
Variable decode : bytes → result str.
Variable Document : bytes → result (list str).
Variable PdfReader : bytes → result (list str).
Variable pd_read_csv : bytes → result DataFrame.
Variable WordCloud : Type.
Variable generate : settings → str → result WordCloud.
Variable words_ : WordCloud → list (str * weight).
Variable savefig : WordCloud → bytes.
Variable sort_values : list (str * weight) → list (str * weight).

(** How the [else] branch ends, by what the engine and the table link
    come to. *)
Lemma render_cases (cfg : settings) (additional : list str) (text : str)
    (log : list (event weight WordCloud)) :
  render STOPWORDS lower weight repr WordCloud generate words_ savefig
    sort_values cfg additional text log
  = let filtered_text := filter_stopwords STOPWORDS lower text additional in
    match generate cfg filtered_text with
    | Err e =>
        (Raise e,
         log ++ [st_text _ _ (preview text);
                 WordCloud_generate cfg filtered_text])
    | Ok wordcloud =>
        let freq_df := summarize words_ sort_values wordcloud in
        let shown :=
          [st_text _ _ (preview text);
           WordCloud_generate cfg filtered_text;
           st_subheader _ _ (lit "Generated Word Cloud");
           st_pyplot _ _ wordcloud;
           st_markdown
             (get_plot_download_link savefig wordcloud (lit "wordcloud.png"));
           st_subheader _ _ (lit "Word Frequency Analysis");
           st_dataframe _ _ (take 20 freq_df);
           st_bar_chart _ _ (take 10 freq_df)] in
        match get_df_download_link repr freq_df (lit "word_frequencies.csv")
        with
        | Err e => (Raise e, log ++ shown)
        | Ok link => (Done tt, log ++ shown ++ [st_markdown link])
        end
    end.
Proof.
  unfold render, bind, emit, call. cbv zeta.
  destruct (generate _ _) as [wordcloud|e]; [|by rewrite <- !app_assoc].
  destruct (get_df_download_link _ _ _); by rewrite <- !app_assoc.
Qed.

(** X14: when the layout engine raises (it does on a text without words),
    the run ends with its exception right after the preview: no figure,
    table or link is shown.  When the engine returns but the table link
    cannot be built, the run ends with that exception after the figure,
    the image link and the top rows are on screen, and without a table
    link. *)
Theorem render_failures (cfg : settings) (additional : list str) (text : str)
    (e : exn) (log : list (event weight WordCloud)) :
  (generate cfg (filter_stopwords STOPWORDS lower text additional) = Err e →
   render STOPWORDS lower weight repr WordCloud generate words_ savefig
     sort_values cfg additional text log
   = (Raise e,
      log ++ [st_text _ _ (preview text);
              WordCloud_generate cfg
                (filter_stopwords STOPWORDS lower text additional)]))
  ∧ (∀ wordcloud,
       generate cfg (filter_stopwords STOPWORDS lower text additional)
         = Ok wordcloud →
       get_df_download_link repr (summarize words_ sort_values wordcloud)
         (lit "word_frequencies.csv") = Err e →
       render STOPWORDS lower weight repr WordCloud generate words_ savefig
         sort_values cfg additional text log
       = (Raise e,
          log ++ [st_text _ _ (preview text);
                  WordCloud_generate cfg
                    (filter_stopwords STOPWORDS lower text additional);
                  st_subheader _ _ (lit "Generated Word Cloud");
                  st_pyplot _ _ wordcloud;
                  st_markdown
                    (get_plot_download_link savefig wordcloud
                       (lit "wordcloud.png"));
                  st_subheader _ _ (lit "Word Frequency Analysis");
                  st_dataframe _ _
                    (take 20 (summarize words_ sort_values wordcloud));
                  st_bar_chart _ _
                    (take 10 (summarize words_ sort_values wordcloud))])).
Proof.
  rewrite render_cases. cbv zeta. split.
  - by intros ->.
  - intros wordcloud -> Hlink. cbv zeta. by rewrite Hlink.
Qed.

(** The extractors show nothing but errors. *)
Lemma extract_events (file : UploadedFile) (o : outcome str)
    (log log' : list (event weight WordCloud)) :
  extract decode Document PdfReader pd_read_csv file log = (o, log') →
  ∃ evs, log' = log ++ evs ∧ Forall (λ ev, ∃ body, ev = st_error body) evs.
Proof.
  unfold extract, read_text, read_doc, read_pdf, read_csv, try_except, bind,
    call, ret, emit, st_stop.
  destruct (dispatch file) as [[]|].
  - destruct (decode _); intros [= <- <-]; exists [];
      by rewrite app_nil_r.
  - destruct (Document _); intros [= <- <-]; exists [];
      by rewrite app_nil_r.
  - destruct (PdfReader _); intros [= <- <-]; exists [];
      by rewrite app_nil_r.
  - destruct (pd_read_csv _); intros [= <- <-].
    + exists []. by rewrite app_nil_r.
    + eexists. split; [done|]. repeat constructor. by eexists.
  - intros [= <- <-]. eexists. split; [done|]. repeat constructor. by eexists.
Qed.

(** X15: in a run on an uploaded file the layout engine is called exactly
    when extraction returns a text that is not blank, and then with the
    sidebar's settings and that text filtered with the custom stopwords;
    it is never called on an unsupported, unreadable or blank file. *)
Theorem engine_called_iff (cfg cfg' : settings) (custom_stopwords t : str)
    (file : UploadedFile) :
  WordCloud_generate cfg' t
    ∈ (process STOPWORDS lower weight repr decode Document PdfReader
         pd_read_csv WordCloud generate words_ savefig sort_values
         cfg custom_stopwords (Some file) []).2
  ↔ ∃ (text : str) (log' : list (event weight WordCloud)),
      extract decode Document PdfReader pd_read_csv file [] = (Done text, log')
      ∧ ¬ Forall (λ c, isspace c = true) text
      ∧ cfg' = cfg
      ∧ t = filter_stopwords STOPWORDS lower text
              (additional_stopwords custom_stopwords).
Proof.
  unfold process, bind.
  destruct (extract _ _ _ _ _ _) as [o log'] eqn:Hextract.
  destruct (extract_events _ _ _ _ Hextract) as (evs & -> & Hevs).
  assert (WordCloud_generate cfg' t ∉ [] ++ evs) as Hnot.
  { simpl. intros Hin. eapply Forall_forall in Hevs as [body Hbody]; [|done].
    discriminate Hbody. }
  destruct o as [text|e|].
  - destruct (decide (strip text = [])) as [Hblank|Hblank].
    + split.
      * unfold emit. simpl. rewrite elem_of_app, list_elem_of_singleton.
        intros [Hin|Hin]; [by apply Hnot in Hin|discriminate Hin].
      * intros (text' & log'' & [= <- _] & Hnb & _).
        by apply strip_nil_iff in Hblank.
    + rewrite render_cases. cbv zeta. split.
      * intros Hin. exists text, ([] ++ evs). split; [done|].
        split; [by rewrite <- strip_nil_iff|].
        destruct (generate _ _) as [wordcloud|e];
          [destruct (get_df_download_link _ _ _)|];
          simpl in Hin; rewrite elem_of_app in Hin;
          destruct Hin as [Hin|Hin]; try (by apply Hnot in Hin);
          repeat (apply elem_of_cons in Hin as [Hin|Hin];
                  [try discriminate Hin|]);
          try (by apply elem_of_nil in Hin);
          by injection Hin as -> ->.
      * intros (text' & log'' & [= <- _] & _ & -> & ->).
        destruct (generate _ _) as [wordcloud|e];
          [destruct (get_df_download_link _ _ _)|];
          simpl; rewrite elem_of_app; right;
          apply list_elem_of_further, list_elem_of_here.
  - simpl. split; [by intros Hin%Hnot|].
    by intros (text' & log'' & [= ] & _).
  - simpl. split; [by intros Hin%Hnot|].
    by intros (text' & log'' & [= ] & _).
Qed.

End EngineCalls.

(** ** The rows shown *)

(** X16: with a [sort_values] that orders by weight, and weights compared
    transitively, the first [n] rows of the summary (20 in the table, 10
    in the chart) weigh at least as much as every row left out; and the
    chart's rows are the first ten rows of the table. *)
Theorem top_rows_heaviest {weight WordCloud : Type}
    (le : weight → weight → Prop)
    (words_ : WordCloud → list (str * weight))
    (sort_values : list (str * weight) → list (str * weight))
    (wordcloud : WordCloud) :
  sorts_descending le sort_values →
  (∀ x y z, le x y → le y z → le x z) →
  (∀ n r r',
     r ∈ take n (summarize words_ sort_values wordcloud) →
     r' ∈ drop n (summarize words_ sort_values wordcloud) →
     le r'.2 r.2)
  ∧ take 10 (summarize words_ sort_values wordcloud)
    = take 10 (take 20 (summarize words_ sort_values wordcloud)).
Proof.
  intros Hsort Htrans. split; [|by rewrite take_take].
  intros n r r' Hr Hr'. unfold summarize in *.
  destruct (Hsort (words_ wordcloud)) as [_ Hdesc].
  apply Sorted_StronglySorted in Hdesc;
    [|intros x y z Hxy Hyz; by eapply Htrans].
  rewrite <- (take_drop n (sort_values _)) in Hdesc.
  by apply (StronglySorted_app_1_elem_of _ _ _ r r') in Hdesc.
Qed.

Lemma top_rows_heaviest_witness :
  (∀ n r r',
     r ∈ take n (summarize (λ wc : list (str * N), wc) sort_ties_last
                   [(lit "cloud", 2); (lit "word", 5); (lit "text", 2)]) →
     r' ∈ drop n (summarize (λ wc : list (str * N), wc) sort_ties_last
                    [(lit "cloud", 2); (lit "word", 5); (lit "text", 2)]) →
     r'.2 ≤ r.2)
  ∧ take 10 (summarize (λ wc : list (str * N), wc) sort_ties_last
               [(lit "cloud", 2); (lit "word", 5); (lit "text", 2)])
    = take 10
        (take 20 (summarize (λ wc : list (str * N), wc) sort_ties_last
                    [(lit "cloud", 2); (lit "word", 5); (lit "text", 2)])).
Proof.
  apply (top_rows_heaviest N.le (λ wc : list (str * N), wc) sort_ties_last).
  - apply sort_ties_last_sorts.
  - intros x y z. apply N.le_trans.
Defined.

(** ** More on the export links *)

(** X17: the image link can be read back: its payload, base64-decoded,
    is the saved PNG, octet for octet. *)
Theorem plot_link_round_trip {Figure : Type} (savefig : Figure → bytes)
    (plot : Figure) :
  Forall (λ b, b < 256) (savefig plot) →
  (link ← parse_link
            (get_plot_download_link savefig plot (lit "wordcloud.png"));
   b64decode (payload link))
  = Some (savefig plot).
Proof.
  intros Hoctets. unfold get_plot_download_link. cbv zeta.
  rewrite parse_plot_href.
  - cbn [mbind option_bind payload]. by apply b64decode_b64encode.
  - apply b64encode_no_quote.
  - vm_compute. repeat constructor; discriminate.
Qed.

Lemma plot_link_round_trip_witness :
  (link ← parse_link
            (get_plot_download_link (Figure := unit)
               (λ _, [137; 80; 78; 71; 13; 10; 26; 10]) ()
               (lit "wordcloud.png"));
   b64decode (payload link))
  = Some [137; 80; 78; 71; 13; 10; 26; 10].
Proof.
  apply (plot_link_round_trip (Figure := unit)
           (λ _, [137; 80; 78; 71; 13; 10; 26; 10]) ()).
  repeat (apply Forall_cons_2; [reflexivity|]). apply Forall_nil_2.
Defined.

Lemma encode_char_scalar_inv (c : char) :
  is_Some (encode_char c) → unicode_scalar c.
Proof.
  unfold encode_char, is_surrogate, unicode_scalar.
  destruct (N.ltb_spec c 128); [lia|].
  destruct (N.ltb_spec c 2048); [lia|].
  destruct (N.ltb_spec c 65536).
  { destruct (N.leb_spec 55296 c), (N.leb_spec c 57343); simpl;
      intros [? ?]; done || lia. }
  destruct (N.ltb_spec c 1114112); [lia|]. by intros [? ?].
Qed.

(** [encode] returns exactly on text made of scalar values, and what it
    raises otherwise is a [UnicodeEncodeError]. *)
Lemma encode_cases (s : str) :
  (Forall unicode_scalar s ∧ ∃ data, encode s = Ok data)
  ∨ (¬ Forall unicode_scalar s
     ∧ encode s = Err (Exception (lit "UnicodeEncodeError"))).
Proof.
  induction s as [|c s IH]; [left; split; [constructor|by eexists]|].
  simpl. destruct (encode_char c) as [bs|] eqn:Hc.
  - assert (unicode_scalar c) as Hsc
      by (apply encode_char_scalar_inv; by rewrite Hc).
    destruct IH as [[Hs [data ->]]|[Hs ->]].
    + left. split; [by constructor|by eexists].
    + right. split; [|done]. intros [_ ?]%Forall_cons. done.
  - right. split; [|done]. intros [Hsc%encode_char_scalar _]%Forall_cons.
    rewrite Hc in Hsc. by destruct Hsc.
Qed.

Lemma Forall_join_inv {P : char → Prop} (sep : str) (l : list str) :
  Forall P (join sep l) → Forall (Forall P) l.
Proof.
  induction l as [|x l IH]; [constructor|]. destruct l as [|y l].
  - simpl. by repeat constructor.
  - change (join sep (x :: y :: l)) with (x ++ sep ++ join sep (y :: l)).
    rewrite !Forall_app. intros (Hx & _ & Hrest). constructor; auto.
Qed.

Lemma csv_field_scalar_inv (f : str) :
  Forall unicode_scalar (csv_field f) → Forall unicode_scalar f.
Proof.
  unfold csv_field. destruct (existsb csv_special f); [|done].
  intros [_ [Hesc _]%Forall_app]%Forall_cons. revert Hesc.
  unfold csv_escape. induction f as [|c f IH]; [done|]. simpl.
  intros [Hc Hf]%Forall_app. constructor; [|by apply IH].
  destruct (c =? dquote) eqn:Heq; [|by inversion Hc].
  apply N.eqb_eq in Heq as ->. by inversion Hc.
Qed.

Lemma csv_row_scalar_inv (fields : list str) :
  Forall unicode_scalar (csv_row fields) →
  Forall (Forall unicode_scalar) fields.
Proof.
  unfold csv_row. intros [Hj%Forall_join_inv _]%Forall_app.
  rewrite Forall_fmap in Hj. eapply Forall_impl; [done|].
  intros f. apply csv_field_scalar_inv.
Qed.

Lemma to_csv_scalar_inv {weight} (repr : weight → str)
    (df : list (str * weight)) :
  Forall unicode_scalar (to_csv repr df) →
  Forall (λ r, Forall unicode_scalar r.1 ∧ Forall unicode_scalar (repr r.2))
    df.
Proof.
  unfold to_csv. intros [_ Hrows]%Forall_app.
  induction df as [|r df IH]; [constructor|].
  simpl in Hrows. apply Forall_app in Hrows as [Hr Hrows].
  constructor; [|by apply IH].
  apply csv_row_scalar_inv in Hr.
  apply Forall_cons in Hr as [Hw [Hx _]%Forall_cons]. done.
Qed.

(** X18: the table link is built exactly when every word and every
    printed weight is text of Unicode scalar values; one lone surrogate
    anywhere makes [csv.encode()] raise a [UnicodeEncodeError], and no
    link is returned. *)
Theorem df_link_cases {weight : Type} (repr : weight → str)
    (df : list (str * weight)) (filename : str) :
  (Forall (λ r, Forall unicode_scalar r.1
                ∧ Forall unicode_scalar (repr r.2)) df
   ∧ ∃ data,
       encode (to_csv repr df) = Ok data
       ∧ get_df_download_link repr df filename
         = Ok (csv_href (b64encode data) filename))
  ∨ (¬ Forall (λ r, Forall unicode_scalar r.1
                    ∧ Forall unicode_scalar (repr r.2)) df
     ∧ get_df_download_link repr df filename
       = Err (Exception (lit "UnicodeEncodeError"))).
Proof.
  unfold get_df_download_link. cbv zeta.
  destruct (encode_cases (to_csv repr df)) as [[Hs [data Hd]]|[Hs He]].
  - left. split; [by apply to_csv_scalar_inv|].
    exists data. by rewrite Hd.
  - right. split; [|by rewrite He].
    intros Hdf. by apply Hs, to_csv_scalar.
Qed.

(** ** More on the dispatch *)

Lemma startswith_spec (s p : str) :
  startswith s p = true ↔ ∃ rest, s = p ++ rest.
Proof.
  revert s. induction p as [|a p IH]; intros s.
  - split; [intros _; by exists s|by destruct s].
  - destruct s as [|b s]; [split; [done|by intros [? ?]]|].
    simpl. rewrite andb_true_iff, N.eqb_eq, IH. split.
    + intros [-> [rest ->]]. by exists rest.
    + intros [rest [= -> ->]]. split; [done|by exists rest].
Qed.

(** [s.endswith(p)] holds exactly when [s] is some stem followed by
    [p]. *)
Lemma endswith_spec (s p : str) :
  endswith s p = true ↔ ∃ stem, s = stem ++ p.
Proof.
  unfold endswith. rewrite startswith_spec. split.
  - intros [rest Hs]. exists (reverse rest).
    apply (f_equal reverse) in Hs.
    by rewrite reverse_app, !reverse_involutive in Hs.
  - intros [stem ->]. exists (reverse stem). by rewrite reverse_app.
Qed.

(** X19: the MIME type alone picks the text, docx and pdf extractors,
    whatever the file is called; the tabular extractor is picked exactly
    when the type is none of these three and either the type is
    [text/csv] or the name is some stem followed by [.csv] (the bare name
    [.csv] included, an upper-case [.CSV] not). *)
Theorem dispatch_cases (file : UploadedFile) :
  (dispatch file = Some ReadText ↔ type file = lit "text/plain")
  ∧ (dispatch file = Some ReadDoc ↔ type file = docx_type)
  ∧ (dispatch file = Some ReadPdf ↔ type file = lit "application/pdf")
  ∧ (dispatch file = Some ReadCsv
     ↔ type file ≠ lit "text/plain" ∧ type file ≠ docx_type
       ∧ type file ≠ lit "application/pdf"
       ∧ (type file = lit "text/csv"
          ∨ ∃ stem, name file = stem ++ lit ".csv")).
Proof.
  rewrite <- endswith_spec. unfold dispatch. cbv zeta.
  destruct (decide (type file = lit "text/plain")) as [->|H1].
  { repeat split; try done; by intros []. }
  destruct (decide (type file = docx_type)) as [->|H2].
  { repeat split; try done; by intros (_ & ? & _). }
  destruct (decide (type file = lit "application/pdf")) as [->|H3].
  { repeat split; try done; by intros (_ & _ & ? & _). }
  destruct (bool_decide_reflect (type file = lit "text/csv")) as [H4|H4];
    simpl.
  { repeat split; try done. by left. }
  destruct (endswith (name file) (lit ".csv")).
  - repeat split; try done. by right.
  - repeat split; try done. by intros (_ & _ & _ & [?|?]).
Qed.

(** The name tests of the dispatch on three names. *)
Example endswith_csv_names :
  endswith (lit ".csv") (lit ".csv") = true
  ∧ endswith (lit "DATA.CSV") (lit ".csv") = false
  ∧ endswith (lit "table.csv.txt") (lit ".csv") = false.
Proof. by vm_compute. Qed.

(** ** More on the custom stopwords *)

Lemma split_on_from_length (sep : char) (cur s : str) :
  length (split_on_from sep cur s)
  = S (length (filter (λ c, c = sep) s)).
Proof.
  unfold str in *. revert cur. induction s as [|c s IH]; intros cur; [done|].
  rewrite filter_cons. simpl.
  destruct (N.eqb_spec c sep) as [->|Hc].
  - rewrite decide_True by done. simpl. by rewrite IH.
  - rewrite decide_False by done. by rewrite IH.
Qed.

Lemma strip_strip (s : str) : strip (strip s) = strip s.
Proof.
  destruct (strip_trimmed s) as [Hhead Hlast].
  assert (∀ t, (∀ c, head t = Some c → isspace c = false) → lstrip t = t)
    as Hl.
  { intros [|c t] H; [done|]. simpl. by rewrite (H c eq_refl). }
  unfold strip at 1. rewrite Hl by done. unfold rstrip.
  rewrite Hl; [by rewrite reverse_involutive|].
  intros c. rewrite head_reverse. apply Hlast.
Qed.

(** X20: a custom text that is not empty gives one token more than it has
    commas, so a trailing or doubled comma adds a token; an empty custom
    text gives none; and every token is already stripped: stripping it
    again changes nothing. *)
Theorem additional_stopwords_count (custom : str) :
  length (additional_stopwords custom)
    = (if decide (custom = []) then 0
       else S (length (filter (λ c, c = comma) custom)))%nat
  ∧ Forall (λ w, strip w = w) (additional_stopwords custom).
Proof.
  unfold additional_stopwords. destruct custom as [|c s]; [done|].
  rewrite decide_False by done. split.
  - rewrite length_fmap. apply split_on_from_length.
  - apply Forall_fmap, Forall_forall. intros w _. apply strip_strip.
Qed.

(** ** More on base64 *)

(** X21: the payload of a link has four characters for every three
    octets, the last group rounded up. *)
Theorem b64encode_length (data : bytes) :
  length (b64encode data) = (4 * ((length data + 2) / 3))%nat.
Proof.
  induction data as [|a|a b|a b c rest IH] using triples_ind; [done..|].
  change (b64encode (a :: b :: c :: rest))
    with (let n := (a mod 256) * 65536 + (b mod 256) * 256 + c mod 256 in
          [b64_char (n / 262144); b64_char (n / 4096); b64_char (n / 64);
           b64_char n] ++ b64encode rest).
  cbv zeta. rewrite length_app, IH.
  change (length (a :: b :: c :: rest)) with (3 + length rest)%nat.
  change (length [_; _; _; _]) with 4%nat.
  generalize (length rest). intros n.
  replace (3 + n + 2)%nat with (1 * 3 + (n + 2))%nat by lia.
  rewrite Nat.div_add_l by lia. lia.
Qed.

(** ** The runs above on sample files *)

Lemma blank_table_reported_witness :
  process ∅ (λ s, s) N decimal_repr (λ data, Ok data) (λ _, Ok [])
    (λ _, Ok [])
    (λ _, Ok [Column (lit "n") int64 [lit "1"; lit "2"];
              Column (lit "note") object [lit " "; lit ""]])
    unit (λ _ _, Ok ()) (λ _, []) (λ _, []) (λ df, df) default_settings []
    (Some {| name := lit "numbers.csv"; type := lit "text/csv";
             getvalue := [] |}) []
  = (Done (), [st_error empty_message]).
Proof.
  apply (blank_table_reported ∅ (λ s, s) N decimal_repr (λ data, Ok data)
           (λ _, Ok []) (λ _, Ok []) _ unit (λ _ _, Ok ()) (λ _, [])
           (λ _, []) (λ df, df) default_settings [] _
           [Column (lit "n") int64 [lit "1"; lit "2"];
            Column (lit "note") object [lit " "; lit ""]] []).
  - reflexivity.
  - reflexivity.
  - repeat constructor.
Defined.

Lemma csv_failure_reported_witness :
  process ∅ (λ s, s) N decimal_repr (λ data, Ok data) (λ _, Ok [])
    (λ _, Ok []) (λ _, Err (Exception (lit "No columns to parse from file")))
    unit (λ _ _, Ok ()) (λ _, []) (λ _, []) (λ df, df) default_settings []
    (Some {| name := lit "empty.csv"; type := lit "text/csv";
             getvalue := [] |}) []
  = (Done (),
     [st_error (lit "Error reading CSV file: No columns to parse from file");
      st_error empty_message]).
Proof.
  apply (csv_failure_reported ∅ (λ s, s) N decimal_repr (λ data, Ok data)
           (λ _, Ok []) (λ _, Ok []) _ unit (λ _ _, Ok ()) (λ _, [])
           (λ _, []) (λ df, df) default_settings [] _
           (Exception (lit "No columns to parse from file")) []).
  - reflexivity.
  - reflexivity.
Defined.

Lemma scanned_pdf_reported_witness :
  process ∅ (λ s, s) N decimal_repr (λ data, Ok data) (λ _, Ok [])
    (λ _, Ok [lit ""; lit " "; lit ""]) (λ _, Ok [])
    unit (λ _ _, Ok ()) (λ _, []) (λ _, []) (λ df, df) default_settings []
    (Some {| name := lit "scan.pdf"; type := lit "application/pdf";
             getvalue := [] |}) []
  = (Done (), [st_error empty_message]).
Proof.
  apply (scanned_pdf_reported ∅ (λ s, s) N decimal_repr (λ data, Ok data)
           (λ _, Ok []) _ (λ _, Ok []) unit (λ _ _, Ok ()) (λ _, [])
           (λ _, []) (λ df, df) default_settings [] _
           [lit ""; lit " "; lit ""] []).
  - reflexivity.
  - reflexivity.
  - repeat constructor.
Defined.

Lemma parser_exception_ends_run_witness :
  process ∅ (λ s, s) N decimal_repr
    (λ _, Err (Exception (lit "UnicodeDecodeError"))) (λ _, Ok [])
    (λ _, Ok []) (λ _, Ok [])
    unit (λ _ _, Ok ()) (λ _, []) (λ _, []) (λ df, df) default_settings []
    (Some {| name := lit "latin1.txt"; type := lit "text/plain";
             getvalue := [233] |}) []
  = (Raise (Exception (lit "UnicodeDecodeError")), []).
Proof.
  apply (parser_exception_ends_run ∅ (λ s, s) N decimal_repr
           (λ _, Err (Exception (lit "UnicodeDecodeError"))) (λ _, Ok [])
           (λ _, Ok []) (λ _, Ok []) unit (λ _ _, Ok ()) (λ _, [])
           (λ _, []) (λ df, df) default_settings []).
  left. split; reflexivity.
Defined.

Lemma render_failures_witness :
  render ∅ ascii_lower N decimal_repr unit
    (λ _ _, Err (Exception (lit "We need at least 1 word to plot a word cloud, got 0.")))
    (λ _, []) (λ _, []) (λ df, df) default_settings [lit "the"]
    (lit "The the") []
  = (Raise (Exception (lit "We need at least 1 word to plot a word cloud, got 0.")),
     [st_text _ _ (lit "The the"); WordCloud_generate default_settings []]).
Proof.
  refine (proj1 (render_failures ∅ ascii_lower N decimal_repr unit
                   (λ _ _, Err (Exception (lit "We need at least 1 word to plot a word cloud, got 0.")))
                   (λ _, []) (λ _, []) (λ df, df) default_settings
                   [lit "the"] (lit "The the") _ []) _).
  reflexivity.
Defined.
